(** * Process information helpers of psutil on OpenBSD

    A shallow embedding of [psutil/arch/bsd/process_info_openbsd.c]:
    the process table reader [psutil_get_proc_list], the two
    size-then-fetch argument readers [psutil_get_cmd_path] and
    [psutil_get_cmd_args], the growth-loop reader [get_argv] with its
    Python wrapper [psutil_get_arg_list], and the liveness classifier
    [psutil_pid_exists].

    The C functions talk to the kernel, to libkvm, to the allocator and
    to the CPython runtime.  Those are modelled by an environment [Env]
    of oracles; the functions themselves are programs in a small state
    monad [M] whose state holds [errno], the heap, the open kvm handles,
    the two function-local [static] variables and a trace of the calls
    made so far. *)

From Stdlib Require Import ZArith Lia.
From stdpp Require Import base gmap list strings.

Local Open Scope Z_scope.

(** ** Machine integers and system constants *)

Module C.

(** [size_t] is 64 bits wide, [int] and [pid_t] are 32 bits wide and
    [long] is 64 bits wide (OpenBSD on an LP64 machine). *)
Definition SIZE_MOD : Z := 2 ^ 64.

(** Conversion to [size_t]: reduction modulo [2^64]. *)
Definition to_size_t (z : Z) : Z := z mod SIZE_MOD.

(** Conversion to [int]: two's complement wrap-around to 32 bits. *)
Definition to_int (z : Z) : Z := (z + 2 ^ 31) mod 2 ^ 32 - 2 ^ 31.

Definition NULL : Z := 0.

(** <errno.h> *)
Definition EPERM : Z := 1.
Definition ESRCH : Z := 3.
Definition ENOMEM : Z := 12.

(** <sys/sysctl.h> *)
Definition CTL_KERN : Z := 1.
Definition KERN_ARGMAX : Z := 8.
Definition KERN_PROC_ARGS : Z := 55.
Definition KERN_PROC : Z := 66.
Definition KERN_PROC_ARGV : Z := 1.
Definition KERN_PROC_ALL : Z := 0.

(** <kvm.h> *)
Definition KVM_NO_FILES : Z := 2 ^ 31.

(** [sizeof(int)], the initial value of [size] in [psutil_get_cmd_args]. *)
Definition sizeof_int : Z := 4.

End C.

(** ** Data *)

(** One entry of the process table.  Only the identifier is looked at;
    the rest of [struct kinfo_proc] is carried along as it is. *)
Record kinfo_proc := { p_pid : Z; p_opaque : list Z }.

(** What a heap block holds. *)
Inductive contents :=
| Uninit
| Procs (ps : list kinfo_proc)
| RawArgs (bytes : list Z)
| IntValue (v : Z)
| ArgvLayout (args : list string).

Record block := { blk_size : Z; blk_data : contents }.

(** Answer of [sysctl]: on success the new value of [*oldlenp] and what
    was stored through [oldp]; on failure the value left in [errno].
    OpenBSD writes [*oldlenp] back only after a successful call, so a
    failed call leaves the caller's size variable as it was. *)
Inductive sysctl_reply :=
| SysOk (newlen : Z) (data : contents)
| SysErr (e : Z).

(** Answer of a system call that carries no data, such as [kill]. *)
Inductive syscall_reply :=
| Success
| Failure (e : Z).

(** Answer of the allocator to [malloc] or [realloc]. *)
Inductive alloc_reply :=
| AllocFail
| AllocInPlace
| AllocMove.

(** Answer of [kvm_getprocs]: the kernel-owned snapshot, or failure. *)
Inductive getprocs_reply :=
| ProcsOk (ps : list kinfo_proc)
| ProcsErr (e : Z).

(** A Python exception set by the C code. *)
Inductive pyexc :=
| MemoryError
| OSError (e : Z).

(** A [PyObject *] as far as this file builds them. *)
Inductive pyobj :=
| PyNULL
| PyList (items : list string).

(** ** The environment

    Every oracle takes the [clock], the number of calls made to the
    environment so far, so that the world may change between two calls
    of the same function (the race the C code has to live with). *)
Record Env := {
  sizeof_kinfo_proc : Z;
  env_kvm_openfiles : nat -> syscall_reply;
  env_kvm_getprocs : nat -> getprocs_reply;
  env_alloc : nat -> Z -> alloc_reply;
  env_sysctl : nat -> list Z -> bool -> Z -> sysctl_reply;
  env_kill : nat -> Z -> Z -> syscall_reply
}.

(** ** Observable calls *)
Inductive event :=
| EvKvmOpenfiles (kd : Z)
| EvKvmGetprocs (kd : Z) (r : getprocs_reply)
| EvKvmClose (kd : Z)
| EvMalloc (size : Z) (res : Z)
| EvRealloc (old : Z) (size : Z) (res : Z)
| EvFree (p : Z)
| EvSysctl (mib : list Z) (oldp : Z) (oldlen : Z) (r : sysctl_reply)
| EvKill (pid sig : Z) (r : syscall_reply)
| EvStore (cell : string) (v : Z)
| EvStderr (msg : string)
| EvErr (status : Z)
| EvPyErr (exc : pyexc).

(** ** Process state *)
Record state := {
  errno : Z;
  heap : gmap Z block;
  kvm_handles : gset Z;
  clock : nat;
  get_argv_argv : Z;       (* [static char **argv] of [get_argv] *)
  arg_list_argv : Z;       (* [static char **argv] of [psutil_get_arg_list] *)
  pyerr : option pyexc;
  trace : list event
}.

Definition init_state : state :=
  {| errno := 0; heap := ∅; kvm_handles := ∅; clock := 0%nat;
     get_argv_argv := C.NULL; arg_list_argv := C.NULL;
     pyerr := None; trace := [] |}.

Definition set_errno (e : Z) (s : state) : state :=
  {| errno := e; heap := heap s; kvm_handles := kvm_handles s;
     clock := clock s; get_argv_argv := get_argv_argv s;
     arg_list_argv := arg_list_argv s; pyerr := pyerr s; trace := trace s |}.

Definition set_heap (h : gmap Z block) (s : state) : state :=
  {| errno := errno s; heap := h; kvm_handles := kvm_handles s;
     clock := clock s; get_argv_argv := get_argv_argv s;
     arg_list_argv := arg_list_argv s; pyerr := pyerr s; trace := trace s |}.

Definition set_kvm_handles (k : gset Z) (s : state) : state :=
  {| errno := errno s; heap := heap s; kvm_handles := k;
     clock := clock s; get_argv_argv := get_argv_argv s;
     arg_list_argv := arg_list_argv s; pyerr := pyerr s; trace := trace s |}.

Definition tick (s : state) : state :=
  {| errno := errno s; heap := heap s; kvm_handles := kvm_handles s;
     clock := S (clock s); get_argv_argv := get_argv_argv s;
     arg_list_argv := arg_list_argv s; pyerr := pyerr s; trace := trace s |}.

Definition set_get_argv_argv (p : Z) (s : state) : state :=
  {| errno := errno s; heap := heap s; kvm_handles := kvm_handles s;
     clock := clock s; get_argv_argv := p;
     arg_list_argv := arg_list_argv s; pyerr := pyerr s; trace := trace s |}.

Definition set_arg_list_argv (p : Z) (s : state) : state :=
  {| errno := errno s; heap := heap s; kvm_handles := kvm_handles s;
     clock := clock s; get_argv_argv := get_argv_argv s;
     arg_list_argv := p; pyerr := pyerr s; trace := trace s |}.

Definition set_pyerr (x : pyexc) (s : state) : state :=
  {| errno := errno s; heap := heap s; kvm_handles := kvm_handles s;
     clock := clock s; get_argv_argv := get_argv_argv s;
     arg_list_argv := arg_list_argv s; pyerr := Some x; trace := trace s |}.

Definition emit (ev : event) (s : state) : state :=
  {| errno := errno s; heap := heap s; kvm_handles := kvm_handles s;
     clock := clock s; get_argv_argv := get_argv_argv s;
     arg_list_argv := arg_list_argv s; pyerr := pyerr s;
     trace := trace s ++ [ev] |}.

(** ** The monad

    A C function either returns ([Done]), or the process ends inside it:
    [err(3)] exits with a status ([Exited]), a failed [assert] aborts
    ([Aborted]), or the behaviour is undefined ([Undefined]).  [OutOfFuel]
    is the model's own: the loop of [get_argv] is run with fuel. *)
Inductive outcome (A : Type) :=
| Done (a : A)
| Exited (status : Z)
| Aborted
| Undefined
| OutOfFuel.
Arguments Done {A} a.
Arguments Exited {A} status.
Arguments Aborted {A}.
Arguments Undefined {A}.
Arguments OutOfFuel {A}.

Definition M (A : Type) : Type := state -> outcome A * state.

Definition ret {A} (a : A) : M A := fun s => (Done a, s).

Definition bind {A B} (m : M A) (k : A -> M B) : M B :=
  fun s =>
    match m s with
    | (Done a, s') => k a s'
    | (Exited st, s') => (Exited st, s')
    | (Aborted, s') => (Aborted, s')
    | (Undefined, s') => (Undefined, s')
    | (OutOfFuel, s') => (OutOfFuel, s')
    end.

Definition get : M state := fun s => (Done s, s).
Definition modify (f : state -> state) : M unit := fun s => (Done tt, f s).
Definition stop {A} (o : outcome A) : M A := fun s => (o, s).

(** [M] is a monad in stdpp's sense, which gives the [x ← m; k] notation. *)
Global Instance M_ret : MRet M := @ret.
Global Instance M_bind : MBind M := fun A B k m => bind m k.

(** ** Library calls *)

(** A fresh, non-null address: neither a live block nor an open handle. *)
Definition fresh_addr (s : state) : Z :=
  fresh ({[C.NULL]} ∪ dom (heap s) ∪ kvm_handles s).

(** [fprintf(stderr, msg)] *)
Definition fprintf_stderr (msg : string) : M unit := modify (emit (EvStderr msg)).

(** [err(status, NULL)] of <err.h>: prints [strerror(errno)] and ends the
    process with [status]; it does not return, so the [return errno] that
    follows each call in [psutil_get_proc_list] is never reached.  (That
    function also declares a local [int err]; the calls are read as calls
    of the library function, as in [get_argv].) *)
Definition err {A} (status : Z) : M A :=
  modify (emit (EvErr status));; stop (Exited status).

(** A store through one of the caller's out-parameters, [*cell = v]. *)
Definition store (cell : string) (v : Z) : M unit := modify (emit (EvStore cell v)).

(** [assert(c)] *)
Definition assert (c : bool) : M unit :=
  if c then ret tt else stop Aborted.

(** [kill(pid, sig)]: 0, or -1 with [errno] set. *)
Definition kill (e : Env) (pid sig : Z) : M Z :=
  s ← get;
  let r := env_kill e (clock s) pid sig in
  modify (fun s => emit (EvKill pid sig r) (tick s));;
  match r with
  | Success => ret 0
  | Failure en => modify (set_errno en);; ret (-1)
  end.

(** ** [psutil_pid_exists] *)

Definition psutil_pid_exists (e : Env) (pid : Z) : M Z :=
  if pid <? 0 then ret 0
  else
    kill_ret ← kill e (C.to_int pid) 0;
    s ← get;
    if (0 =? kill_ret) || (C.EPERM =? errno s) then ret 1
    else ret 0.

(** ** Allocator, kernel and runtime calls *)

Definition nl : string := String (Ascii.ascii_of_nat 10) EmptyString.

Definition new_block (size : Z) : block := {| blk_size := size; blk_data := Uninit |}.

Definition resize (size : Z) (b : block) : block :=
  {| blk_size := size; blk_data := blk_data b |}.

Definition fill (data : contents) (b : block) : block :=
  {| blk_size := blk_size b; blk_data := data |}.

(** [malloc(size)]: a fresh block, or [NULL] with [errno = ENOMEM]. *)
Definition malloc (e : Env) (size : Z) : M Z :=
  s ← get;
  match env_alloc e (clock s) size with
  | AllocFail =>
      modify (fun s => emit (EvMalloc size C.NULL) (set_errno C.ENOMEM (tick s)));;
      ret C.NULL
  | _ =>
      let p := fresh_addr s in
      modify (fun s => emit (EvMalloc size p)
                         (set_heap (<[p := new_block size]> (heap s)) (tick s)));;
      ret p
  end.

(** [free(p)] *)
Definition free (p : Z) : M unit :=
  if p =? C.NULL then ret tt
  else
    s ← get;
    match heap s !! p with
    | Some _ => modify (fun s => emit (EvFree p) (set_heap (delete p (heap s)) s))
    | None => stop Undefined
    end.

(** [realloc(old, size)]: as [malloc] when [old] is [NULL]; otherwise the
    block is resized where it is or moved, or the call fails and leaves
    the old block alone. *)
Definition realloc (e : Env) (old size : Z) : M Z :=
  s ← get;
  if old =? C.NULL then
    match env_alloc e (clock s) size with
    | AllocFail =>
        modify (fun s => emit (EvRealloc old size C.NULL) (set_errno C.ENOMEM (tick s)));;
        ret C.NULL
    | _ =>
        let p := fresh_addr s in
        modify (fun s => emit (EvRealloc old size p)
                           (set_heap (<[p := new_block size]> (heap s)) (tick s)));;
        ret p
    end
  else
    match heap s !! old with
    | None => stop Undefined
    | Some b =>
        match env_alloc e (clock s) size with
        | AllocFail =>
            modify (fun s => emit (EvRealloc old size C.NULL)
                               (set_errno C.ENOMEM (tick s)));;
            ret C.NULL
        | AllocInPlace =>
            modify (fun s => emit (EvRealloc old size old)
                               (set_heap (<[old := resize size b]> (heap s)) (tick s)));;
            ret old
        | AllocMove =>
            let p := fresh_addr s in
            modify (fun s => emit (EvRealloc old size p)
                               (set_heap (<[p := resize size b]> (delete old (heap s)))
                                  (tick s)));;
            ret p
        end
    end.

(** [sysctl(mib, namelen, oldp, &oldlen, NULL, 0)] with [oldp] null or a
    heap block.  Returns the call's value and the new [oldlen]. *)
Definition sysctl (e : Env) (mib : list Z) (oldp oldlen : Z) : M (Z * Z) :=
  s ← get;
  let r := env_sysctl e (clock s) mib (negb (oldp =? C.NULL)) oldlen in
  modify (fun s => emit (EvSysctl mib oldp oldlen r) (tick s));;
  match r with
  | SysErr en => modify (set_errno en);; ret (-1, oldlen)
  | SysOk newlen data =>
      if oldp =? C.NULL then ret (0, C.to_size_t newlen)
      else
        match heap s !! oldp with
        | None => stop Undefined
        | Some b =>
            modify (fun s => set_heap (<[oldp := fill data b]> (heap s)) s);;
            ret (0, C.to_size_t newlen)
        end
  end.

(** The same call with [oldp] the address of a local [int]: returns the
    call's value, the [int] and the new [oldlen].  In the trace the
    address of the local shows as [LOCAL]. *)
Definition LOCAL : Z := -1.

Definition sysctl_int (e : Env) (mib : list Z) (old oldlen : Z) : M (Z * Z * Z) :=
  s ← get;
  let r := env_sysctl e (clock s) mib true oldlen in
  modify (fun s => emit (EvSysctl mib LOCAL oldlen r) (tick s));;
  match r with
  | SysErr en => modify (set_errno en);; ret (-1, old, oldlen)
  | SysOk newlen (IntValue v) => ret (0, C.to_int v, C.to_size_t newlen)
  | SysOk _ _ => stop Undefined
  end.

(** [kvm_openfiles(NULL, NULL, NULL, KVM_NO_FILES, errbuf)] *)
Definition kvm_openfiles (e : Env) : M Z :=
  s ← get;
  match env_kvm_openfiles e (clock s) with
  | Failure en =>
      modify (fun s => emit (EvKvmOpenfiles C.NULL) (set_errno en (tick s)));;
      ret C.NULL
  | Success =>
      let kd := fresh_addr s in
      modify (fun s => emit (EvKvmOpenfiles kd)
                         (set_kvm_handles ({[kd]} ∪ kvm_handles s) (tick s)));;
      ret kd
  end.

(** [kvm_getprocs(kd, KERN_PROC_ALL, 0, sizeof(struct kinfo_proc), &cnt)]:
    the snapshot and [cnt], or [None] for a null result. *)
Definition kvm_getprocs (e : Env) (kd : Z) : M (option (list kinfo_proc * Z)) :=
  s ← get;
  if decide (kd ∈ kvm_handles s) then
    let r := env_kvm_getprocs e (clock s) in
    modify (fun s => emit (EvKvmGetprocs kd r) (tick s));;
    match r with
    | ProcsErr en => modify (set_errno en);; ret None
    | ProcsOk ps => ret (Some (ps, C.to_int (Z.of_nat (length ps))))
    end
  else stop Undefined.

(** [kvm_close(kd)] *)
Definition kvm_close (kd : Z) : M unit :=
  s ← get;
  if decide (kd ∈ kvm_handles s) then
    modify (fun s => emit (EvKvmClose kd) (set_kvm_handles (kvm_handles s ∖ {[kd]}) s))
  else stop Undefined.

(** [memcpy(dst, result, mlen)] from a snapshot of process entries, each
    [esize] bytes long. *)
Definition memcpy_procs (dst : Z) (ps : list kinfo_proc) (mlen esize : Z) : M unit :=
  s ← get;
  match heap s !! dst with
  | None => stop Undefined
  | Some b =>
      modify (set_heap (<[dst := fill (Procs (take (Z.to_nat (mlen / esize)) ps)) b]> (heap s)))
  end.

(** [PyErr_NoMemory()] *)
Definition PyErr_NoMemory : M unit :=
  modify (fun s => emit (EvPyErr MemoryError) (set_pyerr MemoryError s)).

(** [PyErr_SetFromErrno(PyExc_OSError)] *)
Definition PyErr_SetFromErrno_OSError : M unit :=
  modify (fun s => emit (EvPyErr (OSError (errno s))) (set_pyerr (OSError (errno s)) s)).

(** ** [psutil_get_proc_list]

    The two out-parameters are an in/out record.  [procList] and
    [procCount] themselves are never null here, so the first and third
    [assert] always hold; the second one tests the caller's [*procList]. *)
Record proc_out := { procList : Z; procCount : Z }.

Definition psutil_get_proc_list (e : Env) (out : proc_out) : M (Z * proc_out) :=
  assert true;;
  assert (procList out =? C.NULL);;
  assert true;;
  kd ← kvm_openfiles e;
  if kd =? C.NULL then
    fprintf_stderr ("WWWWWWWWWWWWWWWWWW" ++ nl);;
    s ← get;
    ret (errno s, out)
  else
    result ← kvm_getprocs e kd;
    match result with
    | None =>
        fprintf_stderr ("UUUUUUUUUUUUUUUUUU" ++ nl);;
        err 1
    | Some (ps, cnt) =>
        store "procCount" (C.to_size_t cnt);;
        let out := {| procList := procList out; procCount := C.to_size_t cnt |} in
        let mlen := C.to_size_t (C.to_size_t cnt * sizeof_kinfo_proc e) in
        p ← malloc e mlen;
        store "procList" p;;
        let out := {| procList := p; procCount := procCount out |} in
        if p =? C.NULL then
          fprintf_stderr ("ZZZZZZZZZZZZZZZZZZ" ++ nl);;
          err 1
        else
          memcpy_procs p ps mlen (sizeof_kinfo_proc e);;
          assert (negb (procList out =? C.NULL));;
          kvm_close kd;;
          ret (0, out)
    end.

(** ** [psutil_get_cmd_path]

    Returns the [char *] and the final value of [*pathsize]. *)
Definition psutil_get_cmd_path (e : Env) (pid : Z) (pathsize : Z) : M (Z * Z) :=
  let size := 0 in
  let mib := [C.CTL_KERN; C.KERN_PROC; C.KERN_PROC_ARGS; C.to_int pid] in
  '(r, size) ← sysctl e mib C.NULL size;
  if r =? -1 then ret (C.NULL, pathsize)
  else
    path ← malloc e size;
    if path =? C.NULL then
      PyErr_NoMemory;;
      ret (C.NULL, pathsize)
    else
      store "pathsize" size;;
      let pathsize := size in
      '(r, size) ← sysctl e mib path size;
      if r =? -1 then
        free path;;
        ret (C.NULL, pathsize)
      else ret (path, pathsize).

(** ** [psutil_get_cmd_args]

    Returns the [char *] and the final value of [*argsize].  [argmax] is
    an uninitialised [int] until the first [sysctl] stores into it. *)
Definition psutil_get_cmd_args (e : Env) (pid : Z) (argsize : Z) : M (Z * Z) :=
  let size := C.sizeof_int in
  let size := C.sizeof_int in
  '(r, argmax, size) ← sysctl_int e [C.CTL_KERN; C.KERN_ARGMAX] 0 size;
  if r =? -1 then ret (C.NULL, argsize)
  else
    procargs ← malloc e (C.to_size_t argmax);
    if procargs =? C.NULL then
      PyErr_NoMemory;;
      ret (C.NULL, argsize)
    else
      let mib := [C.CTL_KERN; C.KERN_PROC; C.KERN_PROC_ARGS; C.to_int pid] in
      let size := C.to_size_t argmax in
      '(r, size) ← sysctl e mib procargs size;
      if r =? -1 then
        free procargs;;
        ret (C.NULL, argsize)
      else
        store "argsize" size;;
        let argsize := size in
        ret (procargs, argsize).

(** ** [get_argv]

    How control leaves the [for] loop: by [break], or by a [return]
    inside the body. *)
Inductive loop_exit :=
| Break
| Return (v : Z).

(** What the caller of a non-void C function receives: the operand of
    the [return] statement that ended the call, or nothing defined when
    control ran past the last statement of the body. *)
Inductive c_result :=
| Returns (v : Z)
| NoReturnValue.

(** The loop [for (;; argv_size *= 2) { ... }], one unit of fuel per
    iteration. *)
Fixpoint get_argv_loop (fuel : nat) (e : Env) (argv_mib : list Z) (argv_size : Z)
  : M loop_exit :=
  match fuel with
  | O => stop OutOfFuel
  | S fuel' =>
      s ← get;
      p ← realloc e (get_argv_argv s) argv_size;
      modify (set_get_argv_argv p);;
      if p =? C.NULL then err 1
      else
        '(r, argv_size) ← sysctl e argv_mib p argv_size;
        if r =? 0 then ret Break
        else
          s ← get;
          if errno s =? C.ESRCH then
            PyErr_SetFromErrno_OSError;;
            ret (Return C.NULL)
          else if negb (errno s =? C.ENOMEM) then err 1
          else get_argv_loop fuel' e argv_mib (C.to_size_t (argv_size * 2))
  end.

(** The body of [get_argv] is the loop and nothing else: the text that
    follows it is the next function definition.  No [return] statement
    is reached after [break]. *)
Definition get_argv (fuel : nat) (e : Env) (pid : Z) : M c_result :=
  let argv_mib := [C.CTL_KERN; C.KERN_PROC_ARGS; C.to_int pid; C.KERN_PROC_ARGV] in
  let argv_size := 128 in
  x ← get_argv_loop fuel e argv_mib argv_size;
  match x with
  | Return v => ret (Returns v)
  | Break => ret NoReturnValue
  end.

(** ** [psutil_get_arg_list]

    [Py_BuildValue] and [PyList_Append] are taken to succeed: the C code
    never tests what they return. *)
Definition Py_BuildValue_empty_list : pyobj := PyList [].

Definition PyList_Append (l : pyobj) (item : string) : pyobj :=
  match l with
  | PyList items => PyList (items ++ [item])
  | PyNULL => PyNULL
  end.

Definition psutil_get_arg_list (fuel : nat) (e : Env) (pid : Z) : M pyobj :=
  let retlist := Py_BuildValue_empty_list in
  if pid <? 0 then ret retlist
  else
    r ← get_argv fuel e pid;
    match r with
    | NoReturnValue => stop Undefined
    | Returns argv =>
        modify (set_arg_list_argv argv);;
        if argv =? C.NULL then ret PyNULL
        else
          s ← get;
          match blk_data <$> heap s !! argv with
          | Some (ArgvLayout args) => ret (foldl PyList_Append retlist args)
          | _ => stop Undefined
          end
    end.

(** ** Reading a run *)

(** The events a computation added to the trace. *)
Definition new_events (s s' : state) : list event :=
  drop (length (trace s)) (trace s').

(** The kernel's answers to the [sysctl] calls of a trace, in order. *)
Definition sysctl_replies (evs : list event) : list sysctl_reply :=
  omap (fun ev => match ev with EvSysctl _ _ _ r => Some r | _ => None end) evs.

(** The MIB and the first size of the two size-then-fetch readers. *)
Definition cmd_mib (pid : Z) : list Z :=
  [C.CTL_KERN; C.KERN_PROC; C.KERN_PROC_ARGS; C.to_int pid].

Definition argmax_mib : list Z := [C.CTL_KERN; C.KERN_ARGMAX].

(** The MIB of the growth-loop reader. *)
Definition argv_mib (pid : Z) : list Z :=
  [C.CTL_KERN; C.KERN_PROC_ARGS; C.to_int pid; C.KERN_PROC_ARGV].

(** The capacities asked of [realloc] in a trace, in order. *)
Definition capacities (evs : list event) : list Z :=
  omap (fun ev => match ev with EvRealloc _ size _ => Some size | _ => None end) evs.

Definition is_alloc_event (ev : event) : bool :=
  match ev with
  | EvMalloc _ _ | EvRealloc _ _ _ => true
  | _ => false
  end.

(** The liveness probe of [psutil_pid_exists]: what the kernel answers to
    [kill(pid, 0)] in state [s]. *)
Definition probe (e : Env) (s : state) (pid : Z) : syscall_reply :=
  env_kill e (clock s) (C.to_int pid) 0.

(** The static buffer of [get_argv] is null or a live block. *)
Definition static_ok (s : state) : Prop :=
  get_argv_argv s = C.NULL ∨ is_Some (heap s !! get_argv_argv s).

(** A run of the loop, read off the code: [loop_run e mib s' ok fuel t c evs o]
    says that the loop started with [fuel], at clock [t], with capacity
    [c], makes the calls [evs] and ends with [o] in state [s'].  Every
    round is a [realloc] followed by a [sysctl]; only the round of
    [run_retry] is followed by another one. *)
Inductive loop_run (e : Env) (mib : list Z) (s' : state)
  : Prop -> nat -> nat -> Z -> list event -> outcome loop_exit -> Prop :=
| run_out_of_fuel (ok : Prop) t c :
    loop_run e mib s' ok 0 t c [] OutOfFuel
| run_dangling (ok : Prop) fuel t c :
    ¬ ok ->
    loop_run e mib s' ok (S fuel) t c [] Undefined
| run_no_memory (ok : Prop) fuel t c old :
    env_alloc e t c = AllocFail ->
    loop_run e mib s' ok (S fuel) t c [EvRealloc old c C.NULL; EvErr 1] (Exited 1)
| run_success (ok : Prop) fuel t c old p n d :
    p ≠ C.NULL ->
    env_alloc e t c ≠ AllocFail ->
    env_sysctl e (S t) mib true c = SysOk n d ->
    get_argv_argv s' = p ->
    heap s' !! p = Some {| blk_size := c; blk_data := d |} ->
    loop_run e mib s' ok (S fuel) t c
      [EvRealloc old c p; EvSysctl mib p c (SysOk n d)] (Done Break)
| run_no_process (ok : Prop) fuel t c old p :
    p ≠ C.NULL ->
    env_alloc e t c ≠ AllocFail ->
    env_sysctl e (S t) mib true c = SysErr C.ESRCH ->
    pyerr s' = Some (OSError C.ESRCH) ->
    loop_run e mib s' ok (S fuel) t c
      [EvRealloc old c p; EvSysctl mib p c (SysErr C.ESRCH); EvPyErr (OSError C.ESRCH)]
      (Done (Return C.NULL))
| run_fatal (ok : Prop) fuel t c old p en :
    p ≠ C.NULL ->
    env_alloc e t c ≠ AllocFail ->
    env_sysctl e (S t) mib true c = SysErr en ->
    en ≠ C.ESRCH -> en ≠ C.ENOMEM ->
    loop_run e mib s' ok (S fuel) t c
      [EvRealloc old c p; EvSysctl mib p c (SysErr en); EvErr 1] (Exited 1)
| run_retry (ok : Prop) fuel t c old p evs o :
    p ≠ C.NULL ->
    env_alloc e t c ≠ AllocFail ->
    env_sysctl e (S t) mib true c = SysErr C.ENOMEM ->
    loop_run e mib s' True fuel (S (S t)) (C.to_size_t (c * 2)) evs o ->
    loop_run e mib s' ok (S fuel) t c
      (EvRealloc old c p :: EvSysctl mib p c (SysErr C.ENOMEM) :: evs) o.

(** What follows the [sysctl] call of one round. *)
Definition after_sysctl (fuel : nat) (e : Env) (mib : list Z)
    (x : Z * Z) : M loop_exit :=
  let '(r, argv_size) := x in
  if r =? 0 then ret Break
  else
    s ← get;
    if errno s =? C.ESRCH then
      PyErr_SetFromErrno_OSError;;
      ret (Return C.NULL)
    else if negb (errno s =? C.ENOMEM) then err 1
    else get_argv_loop fuel e mib (C.to_size_t (argv_size * 2)).

(** The capacities [c], [2c], [4c], ... of [n] rounds without overflow. *)
Fixpoint doubling (c : Z) (n : nat) : list Z :=
  match n with
  | O => []
  | S n' => c :: doubling (2 * c) n'
  end.

(** The number of rounds that [need] bytes can take from 128 bytes on. *)
Definition retry_bound (need : Z) : nat :=
  S (Z.to_nat (Z.log2_up ((need + 127) / 128))).

(** [get_argv] is its loop, with the [break] exit turned into a call
    that ends without a value. *)
Definition exit_result (o : outcome loop_exit) : outcome c_result :=
  match o with
  | Done Break => Done NoReturnValue
  | Done (Return v) => Done (Returns v)
  | Exited st => Exited st
  | Aborted => Aborted
  | Undefined => Undefined
  | OutOfFuel => OutOfFuel
  end.

(** ** Sample environments *)
Module Sample.

(** A kernel whose process table query finds nothing to return. *)
Definition no_procs : Env :=
  {| sizeof_kinfo_proc := 644;
     env_kvm_openfiles := fun _ => Success;
     env_kvm_getprocs := fun _ => ProcsErr C.ENOMEM;
     env_alloc := fun _ _ => AllocMove;
     env_sysctl := fun _ _ _ _ => SysErr C.ESRCH;
     env_kill := fun _ _ _ => Failure C.ESRCH |}.

(** A kernel that answers every argv query at once. *)
Definition argv_ready : Env :=
  {| sizeof_kinfo_proc := 644;
     env_kvm_openfiles := fun _ => Success;
     env_kvm_getprocs := fun _ => ProcsOk [];
     env_alloc := fun _ _ => AllocMove;
     env_sysctl := fun _ _ _ _ => SysOk 16 (ArgvLayout ["sh"%string]);
     env_kill := fun _ _ _ => Success |}.

(** A kernel that wants [need] bytes for the argv of any process. *)
Definition needs (need : Z) : Env :=
  {| sizeof_kinfo_proc := 644;
     env_kvm_openfiles := fun _ => Success;
     env_kvm_getprocs := fun _ => ProcsOk [];
     env_alloc := fun _ _ => AllocInPlace;
     env_sysctl := fun _ _ _ c =>
       if c <? need then SysErr C.ENOMEM else SysOk need (ArgvLayout ["sh"%string]);
     env_kill := fun _ _ _ => Success |}.

(** A process that is there for the first query and gone afterwards. *)
Definition vanishing : Env :=
  {| sizeof_kinfo_proc := 644;
     env_kvm_openfiles := fun _ => Success;
     env_kvm_getprocs := fun _ => ProcsOk [];
     env_alloc := fun _ _ => AllocMove;
     env_sysctl := fun t _ _ _ =>
       match t with
       | O => SysOk 4 (IntValue 4096)
       | _ => SysErr C.ESRCH
       end;
     env_kill := fun _ _ _ => Failure C.ESRCH |}.

(** A kernel that is short of room twice and then finds the process gone. *)
Definition gone_on_third : Env :=
  {| sizeof_kinfo_proc := 644;
     env_kvm_openfiles := fun _ => Success;
     env_kvm_getprocs := fun _ => ProcsOk [];
     env_alloc := fun _ _ => AllocMove;
     env_sysctl := fun _ _ _ c => if c <? 512 then SysErr C.ENOMEM else SysErr C.ESRCH;
     env_kill := fun _ _ _ => Failure C.ESRCH |}.

End Sample.

(** ** [psutil_raise_ad_or_nsp]

    [NoSuchProcess()] and [AccessDenied()] are defined in another file of
    the library; they are parameters here.  The function is declared
    [int] and has no [return] statement.  Its parameter has no declared
    type, so it is an [int]. *)
Definition psutil_raise_ad_or_nsp (NoSuchProcess AccessDenied : M unit)
    (e : Env) (pid : Z) : M c_result :=
  r ← psutil_pid_exists e (C.to_int pid);
  (if r =? 0 then NoSuchProcess else AccessDenied);;
  ret NoReturnValue.

(** ** More vocabulary *)

(** The capacities of the growth loop with the wrap-around of [size_t]. *)
Fixpoint wrapping (c : Z) (n : nat) : list Z :=
  match n with
  | O => []
  | S n' => c :: wrapping (C.to_size_t (c * 2)) n'
  end.

(** The signals sent by the [kill] calls of a trace. *)
Definition signals_sent (evs : list event) : list Z :=
  omap (fun ev => match ev with EvKill _ sig _ => Some sig | _ => None end) evs.

(** The sizes asked of the allocator in a trace, in order. *)
Definition allocations (evs : list event) : list Z :=
  omap (fun ev => match ev with
                  | EvMalloc size _ | EvRealloc _ size _ => Some size
                  | _ => None
                  end) evs.

(** What [get_argv] leaves alone: the open handles, the static variable
    of [psutil_get_arg_list], every heap block other than its own static
    buffer, and, unless it returns [NULL], the Python error. *)
Definition get_argv_frame (s s' : state) : Prop :=
  kvm_handles s' = kvm_handles s
  ∧ arg_list_argv s' = arg_list_argv s
  ∧ (static_ok s -> static_ok s')
  ∧ (forall q b, q ≠ get_argv_argv s -> heap s !! q = Some b -> heap s' !! q = Some b).

(** ** More sample environments *)
Module Scenario.

(** A kernel that refuses the caller everything. *)
Definition denied : Env :=
  {| sizeof_kinfo_proc := 644;
     env_kvm_openfiles := fun _ => Failure 13;
     env_kvm_getprocs := fun _ => ProcsErr 13;
     env_alloc := fun _ _ => AllocMove;
     env_sysctl := fun _ _ _ _ => SysErr C.EPERM;
     env_kill := fun _ _ _ => Failure C.EPERM |}.

(** A system with two processes, each with the arguments ["sh"; "-c"];
    the kernel reports 6 bytes of raw arguments and 262144 for
    [KERN_ARGMAX]. *)
Definition two_procs : Env :=
  {| sizeof_kinfo_proc := 644;
     env_kvm_openfiles := fun _ => Success;
     env_kvm_getprocs := fun _ =>
       ProcsOk [ {| p_pid := 1; p_opaque := [] |}; {| p_pid := 4242; p_opaque := [7] |} ];
     env_alloc := fun _ _ => AllocMove;
     env_sysctl := fun _ mib buf _ =>
       if bool_decide (mib = [C.CTL_KERN; C.KERN_ARGMAX]) then SysOk 4 (IntValue 262144)
       else if buf then SysOk 6 (RawArgs [115; 104; 0; 45; 99; 0])
       else SysOk 6 Uninit;
     env_kill := fun _ _ _ => Success |}.

(** The same system with an allocator that is out of memory. *)
Definition no_memory : Env :=
  {| sizeof_kinfo_proc := 644;
     env_kvm_openfiles := env_kvm_openfiles two_procs;
     env_kvm_getprocs := env_kvm_getprocs two_procs;
     env_alloc := fun _ _ => AllocFail;
     env_sysctl := env_sysctl two_procs;
     env_kill := env_kill two_procs |}.

(** A kernel for which no buffer is ever large enough. *)
Definition always_too_small : Env :=
  {| sizeof_kinfo_proc := 644;
     env_kvm_openfiles := fun _ => Success;
     env_kvm_getprocs := fun _ => ProcsOk [];
     env_alloc := fun _ _ => AllocInPlace;
     env_sysctl := fun _ _ _ _ => SysErr C.ENOMEM;
     env_kill := fun _ _ _ => Success |}.

End Scenario.

(** The capacity of round [i] of the growth loop when round 0 asks for
    [c] bytes: [argv_size *= 2], [i] times, on a [size_t]. *)
Fixpoint nth_capacity (c : Z) (i : nat) : Z :=
  match i with
  | O => c
  | S i' => nth_capacity (C.to_size_t (c * 2)) i'
  end.

(** How [get_argv] ends after the [sysctl] answer [x] that is not "too
    small": [break] after a success, [return NULL] after [ESRCH], [err]
    after any other error. *)
Definition exit_of_reply (x : sysctl_reply) : outcome c_result :=
  match x with
  | SysOk _ _ => Done NoReturnValue
  | SysErr en => if en =? C.ESRCH then Done (Returns C.NULL) else Exited 1
  end.

(** ** Proof automation *)

(** Rewriting database for the facts that a state update leaves the next
    fresh address alone. *)
Create Rewrite HintDb frame.

(** [run] executes the monadic code of the goal one layer further. *)
Ltac z_literal a :=
  let a' := eval cbv delta [C.NULL C.EPERM C.ESRCH C.ENOMEM] in a in
  match a' with
  | Z0 => idtac
  | Zpos _ => idtac
  | Zneg _ => idtac
  end.

(** Decide the comparisons between two constants that show up in the goal. *)
Ltac eval_tests :=
  repeat match goal with
    | |- context [Z.eqb ?a ?b] =>
        z_literal a; z_literal b;
        let v := eval cbv in (Z.eqb a b) in
        match v with true => idtac | false => idtac end;
        change (Z.eqb a b) with v
    end.

Ltac run :=
  unfold mbind, M_bind, bind, mret, M_ret, ret, get, modify, stop;
  cbn -[Z.eqb Z.ltb Z.mul Z.modulo Z.div C.to_size_t C.to_int fresh_addr
        C.NULL C.EPERM C.ESRCH C.ENOMEM];
  autorewrite with frame; eval_tests;
  cbn -[Z.eqb Z.ltb Z.mul Z.modulo Z.div C.to_size_t C.to_int fresh_addr
        C.NULL C.EPERM C.ESRCH C.ENOMEM].

(** * Proofs *)

(** ** Fresh addresses and traces *)

Lemma fresh_addr_not_null (s : state) : fresh_addr s ≠ C.NULL.
Proof.
  unfold fresh_addr. intros Heq.
  apply (is_fresh ({[C.NULL]} ∪ dom (heap s) ∪ kvm_handles s)).
  rewrite Heq. set_solver.
Qed.

Lemma fresh_addr_not_live (s : state) : heap s !! fresh_addr s = None.
Proof.
  unfold fresh_addr. apply not_elem_of_dom.
  pose proof (is_fresh ({[C.NULL]} ∪ dom (heap s) ∪ kvm_handles s)). set_solver.
Qed.

Lemma fresh_addr_not_handle (s : state) : fresh_addr s ∉ kvm_handles s.
Proof.
  unfold fresh_addr.
  pose proof (is_fresh ({[C.NULL]} ∪ dom (heap s) ∪ kvm_handles s)). set_solver.
Qed.

Lemma fresh_addr_eqb (s : state) : (fresh_addr s =? C.NULL) = false.
Proof. apply Z.eqb_neq, fresh_addr_not_null. Qed.

(** The next fresh address depends on the heap and the handles only. *)
Lemma fresh_addr_emit ev s : fresh_addr (emit ev s) = fresh_addr s.
Proof. reflexivity. Qed.
Lemma fresh_addr_tick s : fresh_addr (tick s) = fresh_addr s.
Proof. reflexivity. Qed.
Lemma fresh_addr_set_errno en s : fresh_addr (set_errno en s) = fresh_addr s.
Proof. reflexivity. Qed.
Lemma fresh_addr_set_pyerr x s : fresh_addr (set_pyerr x s) = fresh_addr s.
Proof. reflexivity. Qed.
Lemma fresh_addr_set_get_argv_argv p s : fresh_addr (set_get_argv_argv p s) = fresh_addr s.
Proof. reflexivity. Qed.

#[export] Hint Rewrite fresh_addr_emit fresh_addr_tick fresh_addr_set_errno
  fresh_addr_set_pyerr fresh_addr_set_get_argv_argv fresh_addr_eqb : frame.

Lemma new_events_app (s s' : state) (evs : list event) :
  trace s' = trace s ++ evs -> new_events s s' = evs.
Proof. intros H. unfold new_events. rewrite H. apply drop_app_length. Qed.

Lemma alloc_reply_cases (r : alloc_reply) (A : Type) (x y : A) :
  r ≠ AllocFail ->
  match r with AllocFail => x | _ => y end = y.
Proof. by destruct r. Qed.

(** *** The size-then-fetch readers *)

Lemma cmd_path_sizing_failure (e : Env) (pid pathsize : Z) (s : state) (en : Z) :
  env_sysctl e (clock s) (cmd_mib pid) false 0 = SysErr en ->
  exists s', psutil_get_cmd_path e pid pathsize s = (Done (C.NULL, pathsize), s')
    ∧ heap s' = heap s
    ∧ new_events s s' = [EvSysctl (cmd_mib pid) C.NULL 0 (SysErr en)].
Proof.
  intros Hq. unfold psutil_get_cmd_path, sysctl. fold (cmd_mib pid). run.
  rewrite Hq. run.
  eexists. split; [reflexivity|]. split; [reflexivity|].
  by apply new_events_app.
Qed.

Lemma cmd_path_fetch_failure (e : Env) (pid pathsize : Z) (s : state)
    (n : Z) (d : contents) (en : Z) :
  env_sysctl e (clock s) (cmd_mib pid) false 0 = SysOk n d ->
  env_alloc e (S (clock s)) (C.to_size_t n) ≠ AllocFail ->
  env_sysctl e (S (S (clock s))) (cmd_mib pid) true (C.to_size_t n) = SysErr en ->
  exists s', psutil_get_cmd_path e pid pathsize s = (Done (C.NULL, C.to_size_t n), s')
    ∧ heap s' = heap s
    ∧ new_events s s' =
        [EvSysctl (cmd_mib pid) C.NULL 0 (SysOk n d);
         EvMalloc (C.to_size_t n) (fresh_addr s);
         EvStore "pathsize" (C.to_size_t n);
         EvSysctl (cmd_mib pid) (fresh_addr s) (C.to_size_t n) (SysErr en);
         EvFree (fresh_addr s)].
Proof.
  intros Hq1 Ha Hq2. unfold psutil_get_cmd_path, sysctl, malloc, store, free.
  fold (cmd_mib pid). run. rewrite Hq1. run.
  rewrite (alloc_reply_cases _ _ _ _ Ha). run.
  rewrite Hq2. run.
  rewrite lookup_insert_eq. run.
  eexists. split; [reflexivity|]. split.
  - cbn. apply delete_insert_id, fresh_addr_not_live.
  - apply new_events_app. cbn. by rewrite <- !app_assoc.
Qed.

Lemma cmd_args_fetch_failure (e : Env) (pid argsize : Z) (s : state)
    (n v : Z) (en : Z) :
  env_sysctl e (clock s) argmax_mib true C.sizeof_int = SysOk n (IntValue v) ->
  env_alloc e (S (clock s)) (C.to_size_t (C.to_int v)) ≠ AllocFail ->
  env_sysctl e (S (S (clock s))) (cmd_mib pid) true (C.to_size_t (C.to_int v)) = SysErr en ->
  exists s', psutil_get_cmd_args e pid argsize s = (Done (C.NULL, argsize), s')
    ∧ heap s' = heap s
    ∧ new_events s s' =
        [EvSysctl argmax_mib LOCAL C.sizeof_int (SysOk n (IntValue v));
         EvMalloc (C.to_size_t (C.to_int v)) (fresh_addr s);
         EvSysctl (cmd_mib pid) (fresh_addr s) (C.to_size_t (C.to_int v)) (SysErr en);
         EvFree (fresh_addr s)].
Proof.
  intros Hq1 Ha Hq2. unfold psutil_get_cmd_args, sysctl_int, sysctl, malloc, store, free.
  fold (cmd_mib pid). fold argmax_mib. run. rewrite Hq1. run.
  rewrite (alloc_reply_cases _ _ _ _ Ha). run.
  rewrite Hq2. run.
  rewrite lookup_insert_eq. run.
  eexists. split; [reflexivity|]. split.
  - cbn. apply delete_insert_id, fresh_addr_not_live.
  - apply new_events_app. cbn. by rewrite <- !app_assoc.
Qed.

(** A reader that hands back [NULL] leaves the heap as it found it. *)
Lemma cmd_path_null_keeps_heap (e : Env) (pid pathsize : Z) (s s' : state) (sz : Z) :
  psutil_get_cmd_path e pid pathsize s = (Done (C.NULL, sz), s') ->
  heap s' = heap s.
Proof.
  unfold psutil_get_cmd_path, sysctl, malloc, store, free. run.
  destruct (env_sysctl e (clock s) _ _ _) as [n d|en]; run;
    [|intros [= <- <-]; reflexivity].
  destruct (env_alloc e (S (clock s)) _); run;
    try (intros [= <- <-]; reflexivity).
  all: destruct (env_sysctl e (S (S (clock s))) _ _ _) as [n2 d2|en2]; run;
    rewrite lookup_insert_eq; run; intros [= ? ?]; subst;
    try (exfalso; eapply fresh_addr_not_null; eassumption).
  all: cbn; apply delete_insert_id, fresh_addr_not_live.
Qed.

Lemma cmd_args_null_keeps_heap (e : Env) (pid argsize : Z) (s s' : state) (sz : Z) :
  psutil_get_cmd_args e pid argsize s = (Done (C.NULL, sz), s') ->
  heap s' = heap s.
Proof.
  unfold psutil_get_cmd_args, sysctl_int, sysctl, malloc, store, free. run.
  destruct (env_sysctl e (clock s) _ _ _) as [n d|en]; run;
    [|intros [= <- <-]; reflexivity].
  destruct d; run; try discriminate.
  destruct (env_alloc e (S (clock s)) _); run;
    try (intros [= <- <-]; reflexivity).
  all: destruct (env_sysctl e (S (S (clock s))) _ _ _) as [n2 d2|en2]; run;
    rewrite lookup_insert_eq; run; intros [= ? ?]; subst;
    try (exfalso; eapply fresh_addr_not_null; eassumption).
  all: cbn; apply delete_insert_id, fresh_addr_not_live.
Qed.

Lemma arg_list_negative_pid (fuel : nat) (e : Env) (pid : Z) (s : state) :
  pid < 0 -> psutil_get_arg_list fuel e pid s = (Done (PyList []), s).
Proof.
  intros Hpid. unfold psutil_get_arg_list.
  destruct (Z.ltb_spec pid 0); [reflexivity|lia].
Qed.

(** *** The process table reader *)

Lemma open_then_close (kd : Z) (hs : gset Z) : kd ∉ hs -> ({[kd]} ∪ hs) ∖ {[kd]} = hs.
Proof.
  intros Hk. apply set_eq. intros x.
  rewrite elem_of_difference, elem_of_union, elem_of_singleton.
  split.
  - intros [[->|Hx] Hne]; [contradiction|exact Hx].
  - intros Hx. split; [by right|]. intros ->. contradiction.
Qed.

Lemma zero_entries_size (esize : Z) :
  C.to_size_t (C.to_size_t (C.to_int (Z.of_nat (length (@nil kinfo_proc)))) * esize) = 0.
Proof. reflexivity. Qed.

Lemma proc_list_zero (e : Env) (out : proc_out) (s : state) :
  procList out = C.NULL ->
  env_kvm_openfiles e (clock s) = Success ->
  env_kvm_getprocs e (S (clock s)) = ProcsOk [] ->
  env_alloc e (S (S (clock s))) 0 ≠ AllocFail ->
  exists s' p,
    psutil_get_proc_list e out s = (Done (0, {| procList := p; procCount := 0 |}), s')
    ∧ p ≠ C.NULL
    ∧ heap s' !! p = Some {| blk_size := 0; blk_data := Procs [] |}
    ∧ kvm_handles s' = kvm_handles s.
Proof.
  intros Hout Ho Hg Ha.
  unfold psutil_get_proc_list, assert, kvm_openfiles, kvm_getprocs, malloc, store,
    memcpy_procs, kvm_close, fprintf_stderr.
  rewrite Hout. run. rewrite Ho. run.
  rewrite decide_True by set_solver. run. rewrite Hg. run.
  rewrite zero_entries_size.
  rewrite (alloc_reply_cases _ _ _ _ Ha). run.
  match goal with |- context [fresh_addr ?x] => set (p := fresh_addr x) end.
  assert (Hp : p ≠ C.NULL) by apply fresh_addr_not_null.
  rewrite lookup_insert_eq. run.
  rewrite decide_True by set_solver. run.
  eexists _, p. split; [reflexivity|]. split; [exact Hp|]. split.
  - cbn. rewrite lookup_insert_eq. reflexivity.
  - cbn. apply open_then_close, fresh_addr_not_handle.
Qed.

Lemma proc_list_query_failure (e : Env) (out : proc_out) (s : state) (en : Z) :
  procList out = C.NULL ->
  env_kvm_openfiles e (clock s) = Success ->
  env_kvm_getprocs e (S (clock s)) = ProcsErr en ->
  exists s',
    psutil_get_proc_list e out s = (Exited 1, s')
    ∧ kvm_handles s' = {[fresh_addr s]} ∪ kvm_handles s
    ∧ new_events s s' =
        [EvKvmOpenfiles (fresh_addr s); EvKvmGetprocs (fresh_addr s) (ProcsErr en);
         EvStderr ("UUUUUUUUUUUUUUUUUU" ++ nl); EvErr 1].
Proof.
  intros Hout Ho Hg.
  unfold psutil_get_proc_list, assert, kvm_openfiles, kvm_getprocs, fprintf_stderr, err.
  rewrite Hout. run. rewrite Ho. run.
  rewrite decide_True by set_solver. run. rewrite Hg. run.
  eexists. split; [reflexivity|]. split; [reflexivity|].
  apply new_events_app. cbn. by rewrite <- !app_assoc.
Qed.

Lemma proc_list_alloc_failure (e : Env) (out : proc_out) (s : state)
    (ps : list kinfo_proc) :
  let cnt := C.to_int (Z.of_nat (length ps)) in
  let mlen := C.to_size_t (C.to_size_t cnt * sizeof_kinfo_proc e) in
  procList out = C.NULL ->
  env_kvm_openfiles e (clock s) = Success ->
  env_kvm_getprocs e (S (clock s)) = ProcsOk ps ->
  env_alloc e (S (S (clock s))) mlen = AllocFail ->
  exists s',
    psutil_get_proc_list e out s = (Exited 1, s')
    ∧ kvm_handles s' = {[fresh_addr s]} ∪ kvm_handles s
    ∧ new_events s s' =
        [EvKvmOpenfiles (fresh_addr s); EvKvmGetprocs (fresh_addr s) (ProcsOk ps);
         EvStore "procCount" (C.to_size_t cnt); EvMalloc mlen C.NULL;
         EvStore "procList" C.NULL;
         EvStderr ("ZZZZZZZZZZZZZZZZZZ" ++ nl); EvErr 1].
Proof.
  intros cnt mlen Hout Ho Hg Ha.
  unfold psutil_get_proc_list, assert, kvm_openfiles, kvm_getprocs, malloc, store,
    fprintf_stderr, err.
  rewrite Hout. run. rewrite Ho. run.
  rewrite decide_True by set_solver. run. rewrite Hg. run.
  fold cnt. fold mlen. rewrite Ha. run.
  eexists. split; [reflexivity|]. split; [reflexivity|].
  apply new_events_app. cbn. by rewrite <- !app_assoc.
Qed.

(** Whenever the reader returns at all after opening a handle, it has
    closed it: the set of open handles is what it was. *)
Lemma proc_list_return_closes (e : Env) (out out' : proc_out) (s s' : state) (rc : Z) :
  psutil_get_proc_list e out s = (Done (rc, out'), s') ->
  kvm_handles s' = kvm_handles s.
Proof.
  unfold psutil_get_proc_list, assert, kvm_openfiles, kvm_getprocs, malloc, store,
    memcpy_procs, kvm_close, fprintf_stderr, err.
  destruct (procList out =? C.NULL); run; [|discriminate].
  destruct (env_kvm_openfiles e (clock s)); run; [|intros [= ? ? ?]; by subst].
  rewrite decide_True by set_solver. run.
  destruct (env_kvm_getprocs e (S (clock s))) as [ps|en]; run; [|discriminate].
  destruct (env_alloc e (S (S (clock s))) _); run; try discriminate.
  all: match goal with |- context [fresh_addr ?x] => set (p := fresh_addr x) end.
  all: rewrite lookup_insert_eq; run.
  all: rewrite decide_True by set_solver; run.
  all: intros [= ? ? ?]; subst; cbn; apply open_then_close, fresh_addr_not_handle.
Qed.


(** *** The growth loop *)

Lemma loop_run_ok (e : Env) (mib : list Z) (s' : state) (ok : Prop)
    fuel t c evs o :
  ok -> loop_run e mib s' ok fuel t c evs o -> loop_run e mib s' True fuel t c evs o.
Proof.
  intros Hok H. destruct H; try (econstructor; eassumption).
  contradiction.
Qed.

Lemma get_argv_loop_round (fuel : nat) (e : Env) (mib : list Z) (c : Z) (s : state)
    (old p : Z) (b : block) :
  p ≠ C.NULL ->
  env_alloc e (clock s) c ≠ AllocFail ->
  (forall c' s1, static_ok s1 -> exists evs,
     trace (get_argv_loop fuel e mib c' s1).2 = trace s1 ++ evs
     ∧ loop_run e mib (get_argv_loop fuel e mib c' s1).2 True fuel (clock s1) c' evs
         (get_argv_loop fuel e mib c' s1).1) ->
  forall (h : gmap Z block) (ok : Prop),
  let s1 := set_get_argv_argv p
              (emit (EvRealloc old c p) (set_heap (<[p := b]> h) (tick s))) in
  blk_size b = c ->
  let r := (x ← sysctl e mib p c; after_sysctl fuel e mib x) s1 in
  exists evs, trace r.2 = trace s ++ evs
    ∧ loop_run e mib r.2 ok (S fuel) (clock s) c evs r.1.
Proof.
  intros Hp Ha IH h ok s1 Hb r. subst r s1.
  unfold sysctl, after_sysctl, PyErr_SetFromErrno_OSError, err. run.
  apply Z.eqb_neq in Hp as Hpb. rewrite Hpb. cbn [negb].
  destruct (env_sysctl e (S (clock s)) mib true c) as [n d|en] eqn:Hq; run.
  - rewrite lookup_insert_eq. run.
    eexists. split; [by rewrite <- !app_assoc|].
    eapply run_success; try eassumption; try reflexivity.
    cbn. rewrite lookup_insert_eq. destruct b; cbn in *; by subst.
  - destruct (Z.eqb_spec en C.ESRCH) as [->|Hne1]; run.
    { eexists. split; [by rewrite <- !app_assoc|].
      eapply run_no_process; try eassumption; reflexivity. }
    destruct (Z.eqb_spec en C.ENOMEM) as [->|Hne2]; run.
    2:{ eexists. split; [by rewrite <- !app_assoc|].
        eapply run_fatal; try eassumption. }
    match goal with |- context [get_argv_loop fuel e mib ?c' ?s1] =>
      destruct (IH c' s1) as (evs & Htr & Hrun) end.
    { right. cbn. rewrite lookup_insert_eq. eauto. }
    eexists. split.
    + rewrite Htr. cbn. rewrite <- !app_assoc. reflexivity.
    + eapply run_retry; try eassumption.
Qed.

Lemma get_argv_loop_run (fuel : nat) (e : Env) (mib : list Z) :
  forall (c : Z) (s : state),
  exists evs,
    trace (get_argv_loop fuel e mib c s).2 = trace s ++ evs
    ∧ loop_run e mib (get_argv_loop fuel e mib c s).2 (static_ok s) fuel (clock s) c evs
        (get_argv_loop fuel e mib c s).1.
Proof.
  induction fuel as [|fuel IH]; intros c s.
  - exists []. cbn. split; [by rewrite app_nil_r|constructor].
  - assert (IH' : forall c' s1, static_ok s1 -> exists evs,
       trace (get_argv_loop fuel e mib c' s1).2 = trace s1 ++ evs
       ∧ loop_run e mib (get_argv_loop fuel e mib c' s1).2 True fuel (clock s1) c' evs
           (get_argv_loop fuel e mib c' s1).1).
    { intros c' s1 Hok. destruct (IH c' s1) as (evs & ? & ?).
      exists evs. split; [done|]. by apply (loop_run_ok _ _ _ (static_ok s1)). }
    clear IH.
    change (get_argv_loop (S fuel) e mib c s) with
      ((s0 ← get;
        p ← realloc e (get_argv_argv s0) c;
        modify (set_get_argv_argv p);;
        if p =? C.NULL then err 1
        else x ← sysctl e mib p c; after_sysctl fuel e mib x) s).
    unfold realloc. run.
    destruct (Z.eqb_spec (get_argv_argv s) C.NULL) as [Hnull|Hlive].
    + destruct (env_alloc e (clock s) c) eqn:Ha; run.
      * unfold err. run. eexists. split; [by rewrite <- !app_assoc|].
        rewrite Hnull. by eapply run_no_memory.
      * rewrite Hnull.
        apply (get_argv_loop_round fuel e mib c s C.NULL (fresh_addr s) (new_block c));
          [apply fresh_addr_not_null|congruence|exact IH'|reflexivity].
      * rewrite Hnull.
        apply (get_argv_loop_round fuel e mib c s C.NULL (fresh_addr s) (new_block c));
          [apply fresh_addr_not_null|congruence|exact IH'|reflexivity].
    + assert (Hl := proj2 (Z.eqb_neq _ _) Hlive).
      destruct (heap s !! get_argv_argv s) as [b|] eqn:Hb; run.
      2:{ exists []. split; [by rewrite app_nil_r|].
          apply run_dangling. intros [?|[? ?]]; congruence. }
      destruct (env_alloc e (clock s) c) eqn:Ha; run; rewrite ?Hl.
      * unfold err. run. eexists. split; [by rewrite <- !app_assoc|].
        by eapply run_no_memory.
      * apply (get_argv_loop_round fuel e mib c s (get_argv_argv s) (get_argv_argv s)
                 (resize c b)); [done|congruence|exact IH'|reflexivity].
      * apply (get_argv_loop_round fuel e mib c s (get_argv_argv s) (fresh_addr s)
                 (resize c b)); [apply fresh_addr_not_null|congruence|exact IH'|reflexivity].
Qed.

Lemma length_doubling (c : Z) (n : nat) : length (doubling c n) = n.
Proof. revert c. induction n as [|n IH]; intros c; cbn; [done|by rewrite IH]. Qed.

Lemma doubling_lookup (n : nat) : forall (c : Z) (i : nat),
  (i < n)%nat -> doubling c n !! i = Some (c * 2 ^ Z.of_nat i).
Proof.
  induction n as [|n IH]; intros c i Hi; [lia|].
  destruct i as [|i]; cbn.
  - f_equal. lia.
  - rewrite IH by lia. f_equal.
    replace (Z.of_nat (S i)) with (Z.succ (Z.of_nat i)) by lia.
    rewrite Z.pow_succ_r by lia. lia.
Qed.

(** Only a "buffer too small" answer is followed by another round, and
    a "no such process" answer ends the loop with the Python error set. *)
Lemma loop_run_replies (e : Env) (mib : list Z) (s' : state) (ok : Prop)
    fuel t c evs o :
  loop_run e mib s' ok fuel t c evs o ->
  (forall i x, sysctl_replies evs !! i = Some x ->
     (S i < length (sysctl_replies evs))%nat -> x = SysErr C.ENOMEM)
  ∧ (forall i, sysctl_replies evs !! i = Some (SysErr C.ESRCH) ->
       length (sysctl_replies evs) = S i
       ∧ o = Done (Return C.NULL)
       ∧ pyerr s' = Some (OSError C.ESRCH)).
Proof.
  unfold sysctl_replies.
  induction 1 as [| | | | | |ok fuel t c old p evs o Hp Ha Hq Hrun [IH1 IH2]]; cbn.
  1-6: split; [intros [|i] x Hi Hlt; cbn in *; lia|].
  1-6: intros [|i] Hi; cbn in Hi; try discriminate; try done.
  - injection Hi as [=]. contradiction.
  - split.
    + intros [|i] x Hi Hlt; cbn in *; [congruence|]. apply (IH1 i); [done|lia].
    + intros [|i] Hi; cbn in Hi; [discriminate|].
      destruct (IH2 i Hi) as (-> & ? & ?). done.
Qed.

(** With a bounded requirement the loop stops within [S n] rounds, where
    [c * 2 ^ n] covers the requirement, and doubles the capacity from
    one round to the next. *)
Lemma loop_run_bounded (e : Env) (mib : list Z) (need : Z) (s' : state) (ok : Prop)
    fuel t c evs o :
  (forall t' c', env_sysctl e t' mib true c' = SysErr C.ENOMEM -> c' < need) ->
  loop_run e mib s' ok fuel t c evs o ->
  forall n : nat,
    ok -> 0 < c -> need <= c * 2 ^ Z.of_nat n -> c * 2 ^ Z.of_nat n <= 2 ^ 63 ->
    (n < fuel)%nat ->
    (o = Done Break ∨ o = Done (Return C.NULL) ∨ o = Exited 1)
    ∧ (exists k, (1 <= k <= S n)%nat ∧ capacities evs = doubling c k).
Proof.
  intros Hneed. induction 1 as [| | | | | |ok fuel t c old p evs o Hp Ha Hq Hrun IH];
    intros m Hok Hc Hlo Hhi Hfuel.
  - lia.
  - contradiction.
  - split; [auto|]. exists 1%nat. split; [lia|reflexivity].
  - split; [auto|]. exists 1%nat. split; [lia|reflexivity].
  - split; [auto|]. exists 1%nat. split; [lia|reflexivity].
  - split; [auto|]. exists 1%nat. split; [lia|reflexivity].
  - apply Hneed in Hq.
    destruct m as [|m]; [cbn in Hlo; lia|].
    replace (Z.of_nat (S m)) with (Z.succ (Z.of_nat m)) in * by lia.
    rewrite Z.pow_succ_r in * by lia.
    assert (Hpow : 0 < 2 ^ Z.of_nat m) by (apply Z.pow_pos_nonneg; lia).
    assert (Hwrap : C.to_size_t (c * 2) = 2 * c).
    { unfold C.to_size_t, C.SIZE_MOD. rewrite Z.mod_small; nia. }
    rewrite Hwrap in IH.
    destruct (IH m) as (Ho & k & Hk & Hcaps); [done|lia|lia|lia|lia|].
    split; [exact Ho|]. exists (S k). split; [lia|].
    unfold capacities in *. cbn. by rewrite Hcaps.
Qed.

Lemma retry_bound_covers (need : Z) :
  need <= 2 ^ 63 ->
  let n := Z.to_nat (Z.log2_up ((need + 127) / 128)) in
  need <= 128 * 2 ^ Z.of_nat n ∧ 128 * 2 ^ Z.of_nat n <= 2 ^ 63.
Proof.
  intros Hneed n. subst n.
  set (q := (need + 127) / 128).
  assert (Hq : need <= 128 * q).
  { unfold q. Z.div_mod_to_equations. lia. }
  assert (Hq56 : q <= 2 ^ 56).
  { unfold q. change (2 ^ 63) with 9223372036854775808 in Hneed.
    change (2 ^ 56) with 72057594037927936. Z.div_mod_to_equations. lia. }
  pose proof (Z.log2_up_nonneg q) as Hnn.
  rewrite Z2Nat.id by exact Hnn.
  split.
  - destruct (Z_lt_le_dec 1 q) as [Hgt|Hle].
    + pose proof (Z.log2_up_spec q Hgt). lia.
    + assert (0 < 2 ^ Z.log2_up q) by (apply Z.pow_pos_nonneg; lia). lia.
  - assert (Hl : Z.log2_up q <= 56).
    { transitivity (Z.log2_up (2 ^ 56)); [by apply Z.log2_up_le_mono|].
      rewrite Z.log2_up_pow2; lia. }
    change (2 ^ 63) with (128 * 2 ^ 56).
    apply Z.mul_le_mono_nonneg_l; [lia|].
    apply Z.pow_le_mono_r; lia.
Qed.

Lemma loop_run_exit (e : Env) (mib : list Z) (s' : state) (ok : Prop)
    fuel t c evs o :
  loop_run e mib s' ok fuel t c evs o ->
  (forall v, o = Done (Return v) -> v = C.NULL)
  ∧ (forall n d, last (sysctl_replies evs) = Some (SysOk n d) ->
       o = Done Break
       ∧ get_argv_argv s' ≠ C.NULL
       ∧ blk_data <$> heap s' !! get_argv_argv s' = Some d).
Proof.
  unfold sysctl_replies.
  induction 1 as [| | |ok fuel t c old p n d Hp Ha Hq Hs Hh| | |
                  ok fuel t c old p evs o Hp Ha Hq Hrun [IH1 IH2]]; cbn.
  1-3,5-6: split; [intros v Hv; congruence|intros n' d' Hl; congruence].
  - split; [intros v Hv; congruence|]. intros n' d' [= -> ->]. subst p.
    split; [done|]. split; [done|]. by rewrite Hh.
  - split; [exact IH1|]. intros n d Hlast. apply (IH2 n).
    destruct (omap _ evs); [discriminate|exact Hlast].
Qed.

Lemma loop_run_rounds (e : Env) (mib : list Z) (s' : state) (ok : Prop)
    fuel t c evs o :
  loop_run e mib s' ok fuel t c evs o ->
  forall i, sysctl_replies evs !! i = Some (SysErr C.ESRCH) ->
    length (capacities evs) = S i.
Proof.
  unfold sysctl_replies, capacities.
  induction 1 as [| | | | | |ok fuel t c old p evs o Hp Ha Hq Hrun IH]; cbn.
  1-6: intros [|i] Hi; cbn in Hi; try discriminate; try done.
  intros [|i] Hi; cbn in Hi; [discriminate|]. by rewrite (IH i).
Qed.

Lemma get_argv_loop_eq (fuel : nat) (e : Env) (pid : Z) (s : state) :
  get_argv fuel e pid s =
    (exit_result (get_argv_loop fuel e (argv_mib pid) 128 s).1,
     (get_argv_loop fuel e (argv_mib pid) 128 s).2).
Proof.
  unfold get_argv. fold (argv_mib pid). run.
  destruct (get_argv_loop fuel e (argv_mib pid) 128 s) as [[[|v]| | | |] s']; reflexivity.
Qed.

(** [get_argv] never hands a buffer to its caller. *)
Lemma get_argv_returns_null_only (fuel : nat) (e : Env) (pid : Z) (s : state) (v : Z) :
  (get_argv fuel e pid s).1 = Done (Returns v) -> v = C.NULL.
Proof.
  rewrite get_argv_loop_eq. cbn.
  destruct (get_argv_loop_run fuel e (argv_mib pid) 128 s) as (evs & _ & Hrun).
  apply loop_run_exit in Hrun as [Hnull _].
  destruct (get_argv_loop fuel e (argv_mib pid) 128 s).1 as [[|w]| | | |]; cbn;
    try discriminate.
  intros [= <-]. by apply Hnull.
Qed.

(** When the query succeeds the answer sits in the static buffer, and the
    call ends without a value. *)
Lemma get_argv_success_no_value (fuel : nat) (e : Env) (pid : Z) (s : state)
    (n : Z) (d : contents) :
  let r := get_argv fuel e pid s in
  last (sysctl_replies (new_events s r.2)) = Some (SysOk n d) ->
  r.1 = Done NoReturnValue
  ∧ get_argv_argv r.2 ≠ C.NULL
  ∧ blk_data <$> heap r.2 !! get_argv_argv r.2 = Some d.
Proof.
  cbn zeta. rewrite get_argv_loop_eq. cbn [fst snd].
  destruct (get_argv_loop_run fuel e (argv_mib pid) 128 s) as (evs & Htr & Hrun).
  rewrite (new_events_app _ _ _ Htr). intros Hlast.
  apply loop_run_exit in Hrun as [_ Hok].
  destruct (Hok n d Hlast) as (-> & ? & ?). done.
Qed.

(** *** Runs of the loop against a given kernel *)

Lemma length_wrapping (c : Z) (n : nat) : length (wrapping c n) = n.
Proof. revert c. induction n as [|n IH]; intros c; cbn; [done|by rewrite IH]. Qed.

Lemma nth_capacity_pow (i : nat) : forall c : Z,
  0 <= c -> c * 2 ^ Z.of_nat i < 2 ^ 64 -> nth_capacity c i = c * 2 ^ Z.of_nat i.
Proof.
  induction i as [|i IH]; intros c Hc Hlt; cbn [nth_capacity].
  - cbn. lia.
  - replace (Z.of_nat (S i)) with (Z.succ (Z.of_nat i)) in * by lia.
    rewrite Z.pow_succ_r in * by lia.
    assert (Hpow : 0 < 2 ^ Z.of_nat i) by (apply Z.pow_pos_nonneg; lia).
    assert (Hwrap : C.to_size_t (c * 2) = 2 * c).
    { unfold C.to_size_t, C.SIZE_MOD. rewrite Z.mod_small; nia. }
    rewrite Hwrap, IH; lia.
Qed.

(** The loop run against a kernel that answers "too small" in the rounds
    before [k] and [x], something else, in round [k], with an allocator
    that serves the rounds up to [k]: exactly [k + 1] rounds, and the exit
    that [x] calls for. *)
Lemma loop_run_script (e : Env) (mib : list Z) (s' : state) (ok : Prop)
    fuel t c evs o :
  loop_run e mib s' ok fuel t c evs o ->
  forall k x,
    ok ->
    (k < fuel)%nat ∨ o ≠ OutOfFuel ->
    (forall j, (j <= k)%nat ->
       env_alloc e (t + 2 * j)%nat (nth_capacity c j) ≠ AllocFail) ->
    (forall j, (j < k)%nat ->
       env_sysctl e (S (t + 2 * j)) mib true (nth_capacity c j) = SysErr C.ENOMEM) ->
    env_sysctl e (S (t + 2 * k)) mib true (nth_capacity c k) = x ->
    x ≠ SysErr C.ENOMEM ->
    sysctl_replies evs = replicate k (SysErr C.ENOMEM) ++ [x]
    ∧ capacities evs = wrapping c (S k)
    ∧ exit_result o = exit_of_reply x
    ∧ (x = SysErr C.ESRCH -> pyerr s' = Some (OSError C.ESRCH))
    ∧ (forall n d, x = SysOk n d ->
         get_argv_argv s' ≠ C.NULL
         ∧ heap s' !! get_argv_argv s'
           = Some {| blk_size := nth_capacity c k; blk_data := d |}).
Proof.
  unfold sysctl_replies, capacities.
  induction 1 as [|ok fuel t c Hnok|ok fuel t c old Ha|
                  ok fuel t c old p n d Hp Ha Hq Hs Hh|
                  ok fuel t c old p Hp Ha Hq Hpy|ok fuel t c old p en Hp Ha Hq Hn1 Hn2|
                  ok fuel t c old p evs o Hp Ha Hq Hrun IH];
    intros k x Hok Hfuel Hal Hen Hx Hne.
  - destruct Hfuel; [lia|done].
  - contradiction.
  - specialize (Hal 0%nat ltac:(lia)). rewrite Nat.add_0_r in Hal. contradiction.
  - destruct k as [|k].
    + rewrite Nat.add_0_r in Hx. cbn in Hx. rewrite Hq in Hx. subst x. cbn.
      split; [done|]. split; [done|]. split; [done|]. split; [discriminate|].
      intros n' d' [= -> ->]. subst p. done.
    + specialize (Hen 0%nat ltac:(lia)). rewrite Nat.add_0_r in Hen. cbn in Hen.
      congruence.
  - destruct k as [|k].
    + rewrite Nat.add_0_r in Hx. cbn in Hx. rewrite Hq in Hx. subst x.
      cbn -[Z.eqb C.ESRCH]. rewrite Z.eqb_refl.
      split; [done|]. split; [done|]. split; [done|]. split; [done|].
      intros n' d' [=].
    + specialize (Hen 0%nat ltac:(lia)). rewrite Nat.add_0_r in Hen. cbn in Hen.
      rewrite Hq in Hen. injection Hen as Hen. vm_compute in Hen. discriminate.
  - destruct k as [|k].
    + rewrite Nat.add_0_r in Hx. cbn in Hx. rewrite Hq in Hx. subst x.
      cbn -[Z.eqb C.ESRCH]. rewrite (proj2 (Z.eqb_neq _ _) Hn1).
      split; [done|]. split; [done|]. split; [done|]. split; [congruence|].
      intros n' d' [=].
    + specialize (Hen 0%nat ltac:(lia)). rewrite Nat.add_0_r in Hen. cbn in Hen.
      congruence.
  - destruct k as [|k].
    + rewrite Nat.add_0_r in Hx. cbn in Hx. congruence.
    + destruct (IH k x I) as (Hrs & Hcaps & Hexit & Hpy & Hbuf).
      * destruct Hfuel; [left; lia|by right].
      * intros j Hj. specialize (Hal (S j) ltac:(lia)).
        replace (t + 2 * S j)%nat with (S (S t) + 2 * j)%nat in Hal by lia. exact Hal.
      * intros j Hj. specialize (Hen (S j) ltac:(lia)).
        replace (t + 2 * S j)%nat with (S (S t) + 2 * j)%nat in Hen by lia. exact Hen.
      * replace (t + 2 * S k)%nat with (S (S t) + 2 * k)%nat in Hx by lia. exact Hx.
      * exact Hne.
      * cbn. rewrite Hrs, Hcaps. done.
Qed.

(** The same with an allocator that fails in round [k]. *)
Lemma loop_run_script_no_memory (e : Env) (mib : list Z) (s' : state) (ok : Prop)
    fuel t c evs o :
  loop_run e mib s' ok fuel t c evs o ->
  forall k,
    ok ->
    (k < fuel)%nat ∨ o ≠ OutOfFuel ->
    (forall j, (j < k)%nat ->
       env_alloc e (t + 2 * j)%nat (nth_capacity c j) ≠ AllocFail) ->
    (forall j, (j < k)%nat ->
       env_sysctl e (S (t + 2 * j)) mib true (nth_capacity c j) = SysErr C.ENOMEM) ->
    env_alloc e (t + 2 * k)%nat (nth_capacity c k) = AllocFail ->
    sysctl_replies evs = replicate k (SysErr C.ENOMEM)
    ∧ capacities evs = wrapping c (S k)
    ∧ o = Exited 1.
Proof.
  unfold sysctl_replies, capacities.
  induction 1 as [|ok fuel t c Hnok|ok fuel t c old Ha|
                  ok fuel t c old p n d Hp Ha Hq Hs Hh|
                  ok fuel t c old p Hp Ha Hq Hpy|ok fuel t c old p en Hp Ha Hq Hn1 Hn2|
                  ok fuel t c old p evs o Hp Ha Hq Hrun IH];
    intros k Hok Hfuel Hal Hen Hfail.
  - destruct Hfuel; [lia|done].
  - contradiction.
  - destruct k as [|k]; [done|].
    specialize (Hal 0%nat ltac:(lia)). rewrite Nat.add_0_r in Hal. contradiction.
  - destruct k as [|k].
    + rewrite Nat.add_0_r in Hfail. contradiction.
    + specialize (Hen 0%nat ltac:(lia)). rewrite Nat.add_0_r in Hen. cbn in Hen.
      congruence.
  - destruct k as [|k].
    + rewrite Nat.add_0_r in Hfail. contradiction.
    + specialize (Hen 0%nat ltac:(lia)). rewrite Nat.add_0_r in Hen. cbn in Hen.
      rewrite Hq in Hen. injection Hen as Hen. vm_compute in Hen. discriminate.
  - destruct k as [|k].
    + rewrite Nat.add_0_r in Hfail. contradiction.
    + specialize (Hen 0%nat ltac:(lia)). rewrite Nat.add_0_r in Hen. cbn in Hen.
      congruence.
  - destruct k as [|k].
    + rewrite Nat.add_0_r in Hfail. contradiction.
    + destruct (IH k I) as (Hrs & Hcaps & Ho).
      * destruct Hfuel; [left; lia|by right].
      * intros j Hj. specialize (Hal (S j) ltac:(lia)).
        replace (t + 2 * S j)%nat with (S (S t) + 2 * j)%nat in Hal by lia. exact Hal.
      * intros j Hj. specialize (Hen (S j) ltac:(lia)).
        replace (t + 2 * S j)%nat with (S (S t) + 2 * j)%nat in Hen by lia. exact Hen.
      * replace (t + 2 * S k)%nat with (S (S t) + 2 * k)%nat in Hfail by lia.
        exact Hfail.
      * cbn. rewrite Hrs, Hcaps. done.
Qed.

(** * Properties of the specification *)

(** C1. On the path where the kernel query returns no result the handle
    opened by [psutil_get_proc_list] is not released: the function
    prints its marker and calls [err(1, NULL)], which ends the process
    with the handle still open.  [kvm_close] is called on the success
    path only. *)
Theorem proc_list_query_failure_keeps_handle_open :
  let r := psutil_get_proc_list Sample.no_procs
             {| procList := C.NULL; procCount := 0 |} init_state in
  r.1 = Exited 1
  ∧ trace r.2 =
      [EvKvmOpenfiles 1; EvKvmGetprocs 1 (ProcsErr C.ENOMEM);
       EvStderr ("UUUUUUUUUUUUUUUUUU" ++ nl); EvErr 1]
  ∧ kvm_handles r.2 = {[1]}.
Proof. vm_compute. done. Qed.

(** C2. When the first query of [get_argv] succeeds the loop is left by
    [break] and the call ends without a [return]: the buffer with the
    argv layout stays in the static variable and no value reaches the
    caller. *)
Theorem get_argv_success_returns_no_value :
  let r := get_argv 1 Sample.argv_ready 1 init_state in
  r.1 = Done NoReturnValue
  ∧ get_argv_argv r.2 = 1
  ∧ heap r.2 !! 1 = Some {| blk_size := 128; blk_data := ArgvLayout ["sh"%string] |}.
Proof. vm_compute. done. Qed.

(** C3. With a requirement of at most [need <= 2^63] bytes, that is a
    kernel that answers "too small" only below [need], [get_argv] asks
    for 128, 256, 512, ... bytes and leaves the loop within
    [retry_bound need] rounds, which is [1 + log2_up (ceil (need / 128))]:
    by [break], by [return NULL] or by [err].  Every "too small" answer
    is followed by a round at twice the size: when the kernel answers
    "too small" in the rounds before [k] and something else in round [k],
    the run has exactly the [k + 1] rounds of 128, ..., [128 * 2^k]
    bytes and ends as that last answer calls for; when the allocator
    fails in round [k], the run ends there with [err]. *)
Theorem get_argv_doubles_and_terminates (e : Env) (pid need : Z) (s : state)
    (fuel : nat) :
  need <= 2 ^ 63 ->
  (forall t c, env_sysctl e t (argv_mib pid) true c = SysErr C.ENOMEM -> c < need) ->
  static_ok s ->
  (retry_bound need <= fuel)%nat ->
  let r := get_argv fuel e pid s in
  let caps := capacities (new_events s r.2) in
  let rs := sysctl_replies (new_events s r.2) in
  let cap := fun j : nat => 128 * 2 ^ Z.of_nat j in
  (r.1 = Done NoReturnValue ∨ r.1 = Done (Returns C.NULL) ∨ r.1 = Exited 1)
  ∧ (1 <= length caps <= retry_bound need)%nat
  ∧ (forall i, (i < length caps)%nat -> caps !! i = Some (cap i))
  ∧ (forall i c1 c2, caps !! i = Some c1 -> caps !! S i = Some c2 -> c2 = 2 * c1)
  ∧ (forall k x,
       (forall j, (j <= k)%nat -> env_alloc e (clock s + 2 * j)%nat (cap j) ≠ AllocFail) ->
       (forall j, (j < k)%nat ->
          env_sysctl e (S (clock s + 2 * j)) (argv_mib pid) true (cap j)
          = SysErr C.ENOMEM) ->
       env_sysctl e (S (clock s + 2 * k)) (argv_mib pid) true (cap k) = x ->
       x ≠ SysErr C.ENOMEM ->
       caps = doubling 128 (S k)
       ∧ rs = replicate k (SysErr C.ENOMEM) ++ [x]
       ∧ r.1 = exit_of_reply x)
  ∧ (forall k,
       (forall j, (j < k)%nat -> env_alloc e (clock s + 2 * j)%nat (cap j) ≠ AllocFail) ->
       (forall j, (j < k)%nat ->
          env_sysctl e (S (clock s + 2 * j)) (argv_mib pid) true (cap j)
          = SysErr C.ENOMEM) ->
       env_alloc e (clock s + 2 * k)%nat (cap k) = AllocFail ->
       caps = doubling 128 (S k)
       ∧ rs = replicate k (SysErr C.ENOMEM)
       ∧ r.1 = Exited 1).
Proof.
  intros Hneed Hkernel Hok Hfuel. cbn zeta.
  rewrite get_argv_loop_eq. cbn [fst snd].
  destruct (get_argv_loop_run fuel e (argv_mib pid) 128 s) as (evs & Htr & Hrun).
  rewrite (new_events_app _ _ _ Htr).
  destruct (retry_bound_covers need Hneed) as [Hlo Hhi].
  destruct (loop_run_bounded _ _ need _ _ _ _ _ _ _ Hkernel Hrun
              (Z.to_nat (Z.log2_up ((need + 127) / 128))))
    as (Ho & k0 & Hk0 & Hcaps); [done|lia|done|done|unfold retry_bound in Hfuel; lia|].
  assert (Hnofuel : (get_argv_loop fuel e (argv_mib pid) 128 s).1 ≠ OutOfFuel).
  { destruct Ho as [->| [->| ->]]; discriminate. }
  assert (Hpow : forall k,
            (forall j, (j < k)%nat ->
               env_sysctl e (S (clock s + 2 * j)) (argv_mib pid) true
                 (128 * 2 ^ Z.of_nat j) = SysErr C.ENOMEM) ->
            forall j, (j <= k)%nat -> nth_capacity 128 j = 128 * 2 ^ Z.of_nat j).
  { intros k Hen j Hj. apply nth_capacity_pow; [lia|].
    destruct j as [|j]; [cbn; lia|].
    specialize (Hen j ltac:(lia)). apply Hkernel in Hen.
    replace (Z.of_nat (S j)) with (Z.succ (Z.of_nat j)) by lia.
    rewrite Z.pow_succ_r by lia.
    change (2 ^ 64) with (2 * 2 ^ 63). lia. }
  assert (Hsame : forall k, capacities evs = wrapping 128 (S k) ->
            doubling 128 k0 = doubling 128 (S k)).
  { intros k Hw. f_equal.
    apply (f_equal length) in Hw. rewrite Hcaps, length_doubling, length_wrapping in Hw.
    exact Hw. }
  rewrite Hcaps, length_doubling.
  split; [|split; [|split; [|split; [|split]]]].
  - destruct Ho as [->| [->| ->]]; cbn; auto.
  - unfold retry_bound. lia.
  - intros i Hi. by apply doubling_lookup.
  - intros i c1 c2 H1 H2.
    assert (Hi : (S i < k0)%nat).
    { apply lookup_lt_Some in H2. by rewrite length_doubling in H2. }
    rewrite doubling_lookup in H1, H2 by lia.
    injection H1 as <-. injection H2 as <-.
    replace (Z.of_nat (S i)) with (Z.succ (Z.of_nat i)) by lia.
    rewrite Z.pow_succ_r by lia. lia.
  - intros k x Hal Hen Hx Hne.
    pose proof (Hpow k Hen) as Hcapk.
    destruct (loop_run_script _ _ _ _ _ _ _ _ _ Hrun k x Hok (or_intror Hnofuel))
      as (Hrs & Hw & Hexit & _ & _).
    + intros j Hj. rewrite (Hcapk j Hj). by apply Hal.
    + intros j Hj. rewrite (Hcapk j ltac:(lia)). by apply Hen.
    + rewrite (Hcapk k ltac:(lia)). exact Hx.
    + exact Hne.
    + split; [by apply Hsame|]. split; [exact Hrs|exact Hexit].
  - intros k Hal Hen Hfail.
    pose proof (Hpow k Hen) as Hcapk.
    destruct (loop_run_script_no_memory _ _ _ _ _ _ _ _ _ Hrun k Hok
                (or_intror Hnofuel)) as (Hrs & Hw & Hexit).
    + intros j Hj. rewrite (Hcapk j ltac:(lia)). by apply Hal.
    + intros j Hj. rewrite (Hcapk j ltac:(lia)). by apply Hen.
    + rewrite (Hcapk k ltac:(lia)). exact Hfail.
    + split; [by apply Hsame|]. split; [exact Hrs|]. by rewrite Hexit.
Qed.

Lemma get_argv_doubles_and_terminates_witness :
  let r := get_argv 3 (Sample.needs 300) 1 init_state in
  capacities (new_events init_state r.2) = [128; 256; 512]
  ∧ sysctl_replies (new_events init_state r.2)
    = [SysErr C.ENOMEM; SysErr C.ENOMEM; SysOk 300 (ArgvLayout ["sh"%string])]
  ∧ r.1 = Done NoReturnValue.
Proof.
  destruct (get_argv_doubles_and_terminates (Sample.needs 300) 1 300 init_state 3)
    as (_ & _ & _ & _ & Hscript & _).
  - vm_compute. discriminate.
  - intros t c. cbn. destruct (c <? 300) eqn:E; [|discriminate].
    intros _. by apply Z.ltb_lt.
  - left. reflexivity.
  - vm_compute. lia.
  - apply (Hscript 2%nat (SysOk 300 (ArgvLayout ["sh"%string]))).
    + intros j Hj. vm_compute. discriminate.
    + intros [|[|j]] Hj; [reflexivity|reflexivity|lia].
    + reflexivity.
    + discriminate.
Defined.

(** C4. When the kernel reports zero processes, and the allocation of
    the zero-byte copy succeeds, [psutil_get_proc_list] returns 0 with
    [*procCount = 0] and [*procList] an allocated, empty list; the
    handle has been closed. *)
Theorem proc_list_zero_processes (e : Env) (out : proc_out) (s : state) :
  procList out = C.NULL ->
  env_kvm_openfiles e (clock s) = Success ->
  env_kvm_getprocs e (S (clock s)) = ProcsOk [] ->
  env_alloc e (S (S (clock s))) 0 ≠ AllocFail ->
  exists s' p,
    psutil_get_proc_list e out s = (Done (0, {| procList := p; procCount := 0 |}), s')
    ∧ p ≠ C.NULL
    ∧ heap s' !! p = Some {| blk_size := 0; blk_data := Procs [] |}
    ∧ kvm_handles s' = kvm_handles s.
Proof. apply proc_list_zero. Qed.

Lemma proc_list_zero_processes_witness :
  exists s' p,
    psutil_get_proc_list Sample.argv_ready {| procList := C.NULL; procCount := 7 |}
      init_state
    = (Done (0, {| procList := p; procCount := 0 |}), s')
    ∧ p ≠ C.NULL
    ∧ heap s' !! p = Some {| blk_size := 0; blk_data := Procs [] |}
    ∧ kvm_handles s' = kvm_handles init_state.
Proof.
  apply (proc_list_zero_processes Sample.argv_ready
           {| procList := C.NULL; procCount := 7 |} init_state).
  - reflexivity.
  - reflexivity.
  - reflexivity.
  - vm_compute. discriminate.
Defined.

(** C5. In [psutil_get_cmd_path] and in [psutil_get_cmd_args], when the
    second query fails after the buffer was allocated, the buffer is
    freed and [NULL] is returned: the heap is what it was before the
    call.  More generally a [NULL] result of either reader never leaves
    a block behind. *)
Theorem cmd_readers_free_buffer_on_failure (e : Env) (pid out : Z) (s : state) :
  (forall n d en,
     env_sysctl e (clock s) (cmd_mib pid) false 0 = SysOk n d ->
     env_alloc e (S (clock s)) (C.to_size_t n) ≠ AllocFail ->
     env_sysctl e (S (S (clock s))) (cmd_mib pid) true (C.to_size_t n) = SysErr en ->
     exists s' sz,
       psutil_get_cmd_path e pid out s = (Done (C.NULL, sz), s')
       ∧ heap s' = heap s
       ∧ new_events s s' =
           [EvSysctl (cmd_mib pid) C.NULL 0 (SysOk n d);
            EvMalloc (C.to_size_t n) (fresh_addr s);
            EvStore "pathsize" (C.to_size_t n);
            EvSysctl (cmd_mib pid) (fresh_addr s) (C.to_size_t n) (SysErr en);
            EvFree (fresh_addr s)])
  ∧ (forall n v en,
       env_sysctl e (clock s) argmax_mib true C.sizeof_int = SysOk n (IntValue v) ->
       env_alloc e (S (clock s)) (C.to_size_t (C.to_int v)) ≠ AllocFail ->
       env_sysctl e (S (S (clock s))) (cmd_mib pid) true (C.to_size_t (C.to_int v))
         = SysErr en ->
       exists s',
         psutil_get_cmd_args e pid out s = (Done (C.NULL, out), s')
         ∧ heap s' = heap s
         ∧ new_events s s' =
             [EvSysctl argmax_mib LOCAL C.sizeof_int (SysOk n (IntValue v));
              EvMalloc (C.to_size_t (C.to_int v)) (fresh_addr s);
              EvSysctl (cmd_mib pid) (fresh_addr s) (C.to_size_t (C.to_int v)) (SysErr en);
              EvFree (fresh_addr s)])
  ∧ (forall s' sz,
       psutil_get_cmd_path e pid out s = (Done (C.NULL, sz), s') -> heap s' = heap s)
  ∧ (forall s' sz,
       psutil_get_cmd_args e pid out s = (Done (C.NULL, sz), s') -> heap s' = heap s).
Proof.
  split; [|split; [|split]].
  - intros n d en H1 H2 H3.
    destruct (cmd_path_fetch_failure e pid out s n d en H1 H2 H3) as (s' & ? & ? & ?).
    by exists s', (C.to_size_t n).
  - intros n v en H1 H2 H3. by apply cmd_args_fetch_failure.
  - intros s' sz. apply cmd_path_null_keeps_heap.
  - intros s' sz. apply cmd_args_null_keeps_heap.
Qed.

Lemma cmd_readers_free_buffer_on_failure_witness :
  (exists s' sz,
     psutil_get_cmd_path Sample.vanishing 1 0 init_state = (Done (C.NULL, sz), s')
     ∧ heap s' = heap init_state
     ∧ last (new_events init_state s') = Some (EvFree (fresh_addr init_state)))
  ∧ (exists s',
       psutil_get_cmd_args Sample.vanishing 1 0 init_state = (Done (C.NULL, 0), s')
       ∧ heap s' = heap init_state
       ∧ last (new_events init_state s') = Some (EvFree (fresh_addr init_state))).
Proof.
  destruct (cmd_readers_free_buffer_on_failure Sample.vanishing 1 0 init_state)
    as (Hpath & Hargs & _ & _).
  split.
  - destruct (Hpath 4 (IntValue 4096) C.ESRCH) as (s' & sz & Hrun & Hheap & Hev).
    + reflexivity.
    + vm_compute. discriminate.
    + reflexivity.
    + exists s', sz. rewrite Hev. done.
  - destruct (Hargs 4 4096 C.ESRCH) as (s' & Hrun & Hheap & Hev).
    + reflexivity.
    + vm_compute. discriminate.
    + reflexivity.
    + exists s'. rewrite Hev. done.
Defined.

(** C6. When the sizing query of [psutil_get_cmd_path] fails, the call
    returns [NULL] after that one [sysctl]: no allocation is asked for,
    the heap and [*pathsize] are untouched. *)
Theorem cmd_path_sizing_failure_allocates_nothing (e : Env) (pid pathsize : Z)
    (s : state) (en : Z) :
  env_sysctl e (clock s) (cmd_mib pid) false 0 = SysErr en ->
  exists s',
    psutil_get_cmd_path e pid pathsize s = (Done (C.NULL, pathsize), s')
    ∧ heap s' = heap s
    ∧ new_events s s' = [EvSysctl (cmd_mib pid) C.NULL 0 (SysErr en)]
    ∧ Forall (fun ev => is_alloc_event ev = false) (new_events s s').
Proof.
  intros Hq.
  destruct (cmd_path_sizing_failure e pid pathsize s en Hq) as (s' & Hrun & Hheap & Hev).
  exists s'. split; [done|]. split; [done|]. split; [done|].
  rewrite Hev. by repeat constructor.
Qed.

Lemma cmd_path_sizing_failure_allocates_nothing_witness :
  exists s',
    psutil_get_cmd_path Sample.no_procs 4242 17 init_state = (Done (C.NULL, 17), s')
    ∧ heap s' = heap init_state
    ∧ new_events init_state s' = [EvSysctl (cmd_mib 4242) C.NULL 0 (SysErr C.ESRCH)]
    ∧ Forall (fun ev => is_alloc_event ev = false) (new_events init_state s').
Proof.
  apply (cmd_path_sizing_failure_allocates_nothing Sample.no_procs 4242 17 init_state
           C.ESRCH).
  reflexivity.
Defined.

(** C7. In [get_argv] a "no such process" answer ([ESRCH]) is the last
    call of the function: no [sysctl] and no [realloc] follows it, the
    Python error is set from [errno] and [NULL] is returned.  Every
    answer that is followed by another round is "buffer too small"
    ([ENOMEM]).  Against the kernel: when it answers "too small" in the
    rounds before [k] and anything else in round [k], the function makes
    exactly those [k + 1] queries and ends at once, with [NULL] and
    [OSError(ESRCH)] when that answer is [ESRCH]. *)
Theorem get_argv_retries_only_when_too_small (fuel : nat) (e : Env) (pid : Z)
    (s : state) :
  let r := get_argv fuel e pid s in
  let rs := sysctl_replies (new_events s r.2) in
  let caps := capacities (new_events s r.2) in
  (forall i, rs !! i = Some (SysErr C.ESRCH) ->
     length rs = S i
     ∧ length caps = S i
     ∧ r.1 = Done (Returns C.NULL)
     ∧ pyerr r.2 = Some (OSError C.ESRCH))
  ∧ (forall i x, rs !! i = Some x -> (S i < length rs)%nat -> x = SysErr C.ENOMEM)
  ∧ (forall k x,
       (k < fuel)%nat ->
       static_ok s ->
       (forall j, (j <= k)%nat ->
          env_alloc e (clock s + 2 * j)%nat (nth_capacity 128 j) ≠ AllocFail) ->
       (forall j, (j < k)%nat ->
          env_sysctl e (S (clock s + 2 * j)) (argv_mib pid) true (nth_capacity 128 j)
          = SysErr C.ENOMEM) ->
       env_sysctl e (S (clock s + 2 * k)) (argv_mib pid) true (nth_capacity 128 k) = x ->
       x ≠ SysErr C.ENOMEM ->
       rs = replicate k (SysErr C.ENOMEM) ++ [x]
       ∧ caps = wrapping 128 (S k)
       ∧ r.1 = exit_of_reply x
       ∧ (x = SysErr C.ESRCH -> pyerr r.2 = Some (OSError C.ESRCH))).
Proof.
  cbn zeta. rewrite get_argv_loop_eq. cbn [fst snd].
  destruct (get_argv_loop_run fuel e (argv_mib pid) 128 s) as (evs & Htr & Hrun).
  rewrite (new_events_app _ _ _ Htr).
  destruct (loop_run_replies _ _ _ _ _ _ _ _ _ Hrun) as [Hretry Hgone].
  split; [|split; [exact Hretry|]].
  - intros i Hi. destruct (Hgone i Hi) as (Hlen & Ho & Hpy).
    split; [done|]. split; [by apply (loop_run_rounds _ _ _ _ _ _ _ _ _ Hrun)|].
    rewrite Ho. done.
  - intros k x Hk Hok Hal Hen Hx Hne.
    destruct (loop_run_script _ _ _ _ _ _ _ _ _ Hrun k x Hok (or_introl Hk)
                Hal Hen Hx Hne) as (Hrs & Hw & Hexit & Hpy & _).
    done.
Qed.

Lemma get_argv_retries_only_when_too_small_witness :
  let r := get_argv 5 Sample.gone_on_third 7 init_state in
  sysctl_replies (new_events init_state r.2)
  = [SysErr C.ENOMEM; SysErr C.ENOMEM; SysErr C.ESRCH]
  ∧ capacities (new_events init_state r.2) = [128; 256; 512]
  ∧ r.1 = Done (Returns C.NULL)
  ∧ pyerr r.2 = Some (OSError C.ESRCH).
Proof.
  destruct (get_argv_retries_only_when_too_small 5 Sample.gone_on_third 7 init_state)
    as (_ & _ & Hscript).
  destruct (Hscript 2%nat (SysErr C.ESRCH)) as (Hrs & Hcaps & Ho & Hpy).
  - lia.
  - left. reflexivity.
  - intros j Hj. vm_compute. discriminate.
  - intros [|[|j]] Hj; [reflexivity|reflexivity|lia].
  - reflexivity.
  - vm_compute. discriminate.
  - split; [exact Hrs|]. split; [exact Hcaps|]. split; [exact Ho|]. by apply Hpy.
Defined.

(** C8. For a non-negative identifier [psutil_pid_exists] returns 1 when
    [kill(pid, 0)] succeeds or fails with [EPERM], and 0 when it fails
    with any other error. *)
Theorem pid_exists_classifies (e : Env) (pid : Z) (s : state) :
  0 <= pid ->
  (probe e s pid = Success ∨ probe e s pid = Failure C.EPERM ->
     (psutil_pid_exists e pid s).1 = Done 1)
  ∧ (forall en, probe e s pid = Failure en -> en ≠ C.EPERM ->
       (psutil_pid_exists e pid s).1 = Done 0).
Proof.
  intros Hpid. unfold psutil_pid_exists, probe, kill.
  destruct (Z.ltb_spec pid 0) as [?|_]; [lia|].
  run.
  destruct (env_kill e (clock s) (C.to_int pid) 0) as [|en0] eqn:Hk; run.
  - split; [done|]. intros en Hen. discriminate.
  - split.
    + intros [?|Heq]; [discriminate|]. injection Heq as ->.
      by rewrite Z.eqb_refl.
    + intros en Heq Hne. injection Heq as ->.
      destruct (Z.eqb_spec C.EPERM en); [congruence|reflexivity].
Qed.

Lemma pid_exists_classifies_witness :
  (probe Sample.argv_ready init_state 5 = Success
   ∨ probe Sample.argv_ready init_state 5 = Failure C.EPERM ->
     (psutil_pid_exists Sample.argv_ready 5 init_state).1 = Done 1)
  ∧ (forall en, probe Sample.argv_ready init_state 5 = Failure en -> en ≠ C.EPERM ->
       (psutil_pid_exists Sample.argv_ready 5 init_state).1 = Done 0).
Proof.
  apply (pid_exists_classifies Sample.argv_ready 5 init_state).
  vm_compute. discriminate.
Defined.

(** C9. [psutil_get_cmd_path] stores the probed size through [pathsize]
    after the allocation and before the second query.  When that query
    fails the function returns [NULL] and [*pathsize] holds the probed
    size, whatever it held before the call. *)
Theorem cmd_path_writes_pathsize_before_fetch (e : Env) (pid pathsize : Z)
    (s : state) (n : Z) (d : contents) (en : Z) :
  env_sysctl e (clock s) (cmd_mib pid) false 0 = SysOk n d ->
  env_alloc e (S (clock s)) (C.to_size_t n) ≠ AllocFail ->
  env_sysctl e (S (S (clock s))) (cmd_mib pid) true (C.to_size_t n) = SysErr en ->
  exists s' pre post,
    psutil_get_cmd_path e pid pathsize s = (Done (C.NULL, C.to_size_t n), s')
    ∧ new_events s s' =
        pre ++ EvStore "pathsize" (C.to_size_t n)
            :: EvSysctl (cmd_mib pid) (fresh_addr s) (C.to_size_t n) (SysErr en)
            :: post
    ∧ Forall (fun ev => forall r, ev ≠ EvSysctl (cmd_mib pid) (fresh_addr s)
                                        (C.to_size_t n) r) pre.
Proof.
  intros H1 H2 H3.
  destruct (cmd_path_fetch_failure e pid pathsize s n d en H1 H2 H3)
    as (s' & Hrun & _ & Hev).
  exists s', [EvSysctl (cmd_mib pid) C.NULL 0 (SysOk n d);
              EvMalloc (C.to_size_t n) (fresh_addr s)], [EvFree (fresh_addr s)].
  split; [done|]. split; [done|].
  repeat constructor; intros r [=].
  by apply (fresh_addr_not_null s).
Qed.

Lemma cmd_path_writes_pathsize_before_fetch_witness :
  exists s' pre post,
    psutil_get_cmd_path Sample.vanishing 1 0 init_state
    = (Done (C.NULL, C.to_size_t 4), s')
    ∧ new_events init_state s' =
        pre ++ EvStore "pathsize" (C.to_size_t 4)
            :: EvSysctl (cmd_mib 1) (fresh_addr init_state) (C.to_size_t 4)
                 (SysErr C.ESRCH)
            :: post
    ∧ Forall (fun ev => forall r, ev ≠ EvSysctl (cmd_mib 1) (fresh_addr init_state)
                                        (C.to_size_t 4) r) pre.
Proof.
  apply (cmd_path_writes_pathsize_before_fetch Sample.vanishing 1 0 init_state
           4 (IntValue 4096) C.ESRCH).
  - reflexivity.
  - vm_compute. discriminate.
  - reflexivity.
Defined.

(** C10. For a negative identifier [psutil_get_arg_list] returns the
    empty list it has just built and does nothing else: the state,
    and with it the trace of kernel and allocator calls, is unchanged,
    and [get_argv] is not entered. *)
Theorem arg_list_negative_pid_is_empty (fuel : nat) (e : Env) (pid : Z) (s : state) :
  pid < 0 ->
  psutil_get_arg_list fuel e pid s = (Done (PyList []), s)
  ∧ new_events s (psutil_get_arg_list fuel e pid s).2 = [].
Proof.
  intros Hpid. rewrite (arg_list_negative_pid fuel e pid s Hpid).
  split; [reflexivity|]. by apply new_events_app, eq_sym, app_nil_r.
Qed.

Lemma arg_list_negative_pid_is_empty_witness :
  psutil_get_arg_list 0 Sample.argv_ready (-1) init_state = (Done (PyList []), init_state)
  ∧ new_events init_state (psutil_get_arg_list 0 Sample.argv_ready (-1) init_state).2 = [].
Proof.
  apply (arg_list_negative_pid_is_empty 0 Sample.argv_ready (-1) init_state).
  reflexivity.
Defined.

(** ** Sample runs *)

(** Two "too small" answers, then "no such process": three rounds at
    128, 256 and 512 bytes, and [NULL] with the Python error set. *)
Example get_argv_gone_on_third_round :
  let r := get_argv 5 Sample.gone_on_third 7 init_state in
  r.1 = Done (Returns C.NULL)
  ∧ sysctl_replies (trace r.2) = [SysErr C.ENOMEM; SysErr C.ENOMEM; SysErr C.ESRCH]
  ∧ capacities (trace r.2) = [128; 256; 512]
  ∧ pyerr r.2 = Some (OSError C.ESRCH).
Proof. vm_compute. done. Qed.

(** A negative identifier is reported as absent without a kernel call. *)
Example pid_exists_negative :
  psutil_pid_exists Sample.argv_ready (-1) init_state = (Done 0, init_state).
Proof. reflexivity. Qed.

(** The allocation-failure path of the process table reader keeps the
    handle open as well. *)
Example proc_list_alloc_failure_run :
  let e := {| sizeof_kinfo_proc := 644;
              env_kvm_openfiles := fun _ => Success;
              env_kvm_getprocs := fun _ => ProcsOk [{| p_pid := 1; p_opaque := [] |}];
              env_alloc := fun _ _ => AllocFail;
              env_sysctl := fun _ _ _ _ => SysErr C.ESRCH;
              env_kill := fun _ _ _ => Success |} in
  let r := psutil_get_proc_list e {| procList := C.NULL; procCount := 0 |} init_state in
  r.1 = Exited 1
  ∧ kvm_handles r.2 = {[1]}
  ∧ Forall (fun ev => forall kd, ev ≠ EvKvmClose kd) (trace r.2).
Proof.
  vm_compute. split; [done|]. split; [done|]. repeat constructor; intros kd [=].
Qed.

(** * Further properties *)

(** ** The process table reader *)

(** X1. When [kvm_openfiles] fails, [psutil_get_proc_list] prints its
    marker and returns the [errno] of that call: no query, no allocation,
    the out-parameters, the heap and the open handles as before. *)
Theorem proc_list_open_failure_returns_errno (e : Env) (out : proc_out) (s : state)
    (en : Z) :
  procList out = C.NULL ->
  env_kvm_openfiles e (clock s) = Failure en ->
  exists s',
    psutil_get_proc_list e out s = (Done (en, out), s')
    ∧ heap s' = heap s
    ∧ kvm_handles s' = kvm_handles s
    ∧ new_events s s' = [EvKvmOpenfiles C.NULL; EvStderr ("WWWWWWWWWWWWWWWWWW" ++ nl)].
Proof.
  intros Hout Ho.
  unfold psutil_get_proc_list, assert, kvm_openfiles, fprintf_stderr.
  rewrite Hout. run. rewrite Ho. run.
  eexists. split; [reflexivity|]. split; [reflexivity|]. split; [reflexivity|].
  apply new_events_app. cbn. by rewrite <- !app_assoc.
Qed.

Lemma proc_list_open_failure_returns_errno_witness :
  exists s',
    psutil_get_proc_list Scenario.denied {| procList := C.NULL; procCount := 9 |} init_state
    = (Done (13, {| procList := C.NULL; procCount := 9 |}), s')
    ∧ heap s' = heap init_state
    ∧ kvm_handles s' = kvm_handles init_state
    ∧ new_events init_state s' =
        [EvKvmOpenfiles C.NULL; EvStderr ("WWWWWWWWWWWWWWWWWW" ++ nl)].
Proof.
  apply (proc_list_open_failure_returns_errno Scenario.denied
           {| procList := C.NULL; procCount := 9 |} init_state 13).
  - reflexivity.
  - reflexivity.
Defined.

Lemma entries_fit (n esize : Z) :
  0 <= n < 2 ^ 31 -> 0 < esize -> n * esize < 2 ^ 64 ->
  C.to_int n = n
  ∧ C.to_size_t n = n
  ∧ C.to_size_t (n * esize) = n * esize
  ∧ n * esize / esize = n.
Proof.
  intros Hn He Hm. unfold C.to_int, C.to_size_t, C.SIZE_MOD.
  change (2 ^ 31) with 2147483648 in *. change (2 ^ 32) with 4294967296.
  split; [rewrite Z.mod_small; lia|].
  split; [rewrite Z.mod_small; lia|].
  split; [rewrite Z.mod_small; nia|].
  apply Z.div_mul. lia.
Qed.

(** X2. When the handle opens, the kernel returns [ps] and the copy can be
    allocated, [psutil_get_proc_list] returns 0, stores the number of
    entries in [*procCount] and a new block holding exactly the entries
    [ps] in [*procList], touches no other block and closes the handle.
    The sizes are those for which [cnt] and [cnt * sizeof(struct
    kinfo_proc)] do not overflow. *)
Theorem proc_list_success_copies_snapshot (e : Env) (out : proc_out) (s : state)
    (ps : list kinfo_proc) :
  let n := Z.of_nat (length ps) in
  procList out = C.NULL ->
  n < 2 ^ 31 -> 0 < sizeof_kinfo_proc e -> n * sizeof_kinfo_proc e < 2 ^ 64 ->
  env_kvm_openfiles e (clock s) = Success ->
  env_kvm_getprocs e (S (clock s)) = ProcsOk ps ->
  env_alloc e (S (S (clock s))) (n * sizeof_kinfo_proc e) ≠ AllocFail ->
  exists s' p,
    psutil_get_proc_list e out s = (Done (0, {| procList := p; procCount := n |}), s')
    ∧ p ≠ C.NULL
    ∧ heap s !! p = None
    ∧ heap s' = <[p := {| blk_size := n * sizeof_kinfo_proc e; blk_data := Procs ps |}]>
                  (heap s)
    ∧ kvm_handles s' = kvm_handles s.
Proof.
  intros n Hout Hn He Hm Ho Hg Ha.
  destruct (entries_fit n (sizeof_kinfo_proc e)) as (E1 & E2 & E3 & E4);
    [lia|lia|lia|].
  unfold psutil_get_proc_list, assert, kvm_openfiles, kvm_getprocs, malloc, store,
    memcpy_procs, kvm_close, fprintf_stderr.
  rewrite Hout. run. rewrite Ho. run.
  rewrite decide_True by set_solver. run. rewrite Hg. run.
  fold n. rewrite E1, E2, E3.
  rewrite (alloc_reply_cases _ _ _ _ Ha). run.
  match goal with |- context [fresh_addr ?x] => set (x0 := x); set (p := fresh_addr x0) end.
  rewrite lookup_insert_eq. run.
  rewrite decide_True by set_solver. run.
  eexists _, p. split; [reflexivity|]. split; [apply fresh_addr_not_null|].
  split; [exact (fresh_addr_not_live x0)|]. split.
  - cbn. rewrite insert_insert_eq. unfold fill, new_block. cbn.
    rewrite E4. unfold n. rewrite Nat2Z.id, firstn_all. reflexivity.
  - cbn. apply open_then_close, fresh_addr_not_handle.
Qed.

Lemma proc_list_success_copies_snapshot_witness :
  exists s' p,
    psutil_get_proc_list Scenario.two_procs {| procList := C.NULL; procCount := 0 |}
      init_state
    = (Done (0, {| procList := p; procCount := 2 |}), s')
    ∧ p ≠ C.NULL
    ∧ heap init_state !! p = None
    ∧ heap s' = <[p := {| blk_size := 2 * 644;
                          blk_data := Procs [ {| p_pid := 1; p_opaque := [] |};
                                              {| p_pid := 4242; p_opaque := [7] |} ] |}]>
                  (heap init_state)
    ∧ kvm_handles s' = kvm_handles init_state.
Proof.
  apply (proc_list_success_copies_snapshot Scenario.two_procs
           {| procList := C.NULL; procCount := 0 |} init_state
           [ {| p_pid := 1; p_opaque := [] |}; {| p_pid := 4242; p_opaque := [7] |} ]).
  - reflexivity.
  - reflexivity.
  - reflexivity.
  - reflexivity.
  - reflexivity.
  - reflexivity.
  - vm_compute. discriminate.
Defined.

(** X3. [psutil_get_proc_list] returns to its caller in two cases only.
    Either [kvm_openfiles] failed, and the result is its [errno] with the
    out-parameters and the heap untouched; or everything succeeded, and
    the result is 0 with [*procList] a live block.  In both cases
    [*procList] was null on entry and the set of open handles is what it
    was on entry. *)
Theorem proc_list_returns_balanced (e : Env) (out out' : proc_out) (s s' : state)
    (rc : Z) :
  psutil_get_proc_list e out s = (Done (rc, out'), s') ->
  procList out = C.NULL
  ∧ kvm_handles s' = kvm_handles s
  ∧ ((exists en, env_kvm_openfiles e (clock s) = Failure en
        ∧ rc = en ∧ out' = out ∧ heap s' = heap s)
     ∨ (env_kvm_openfiles e (clock s) = Success
        ∧ rc = 0 ∧ procList out' ≠ C.NULL ∧ is_Some (heap s' !! procList out'))).
Proof.
  unfold psutil_get_proc_list, assert, kvm_openfiles, kvm_getprocs, malloc, store,
    memcpy_procs, kvm_close, fprintf_stderr, err.
  destruct (Z.eqb_spec (procList out) C.NULL) as [Hout|Hout]; run; [|discriminate].
  destruct (env_kvm_openfiles e (clock s)) as [|en] eqn:Ho; run.
  2:{ intros [= ? ? ?]; subst. split; [done|]. split; [done|]. left.
      eexists. split; [reflexivity|done]. }
  rewrite decide_True by set_solver. run.
  destruct (env_kvm_getprocs e (S (clock s))) as [ps|en]; run; [|discriminate].
  destruct (env_alloc e (S (S (clock s))) _); run; try discriminate.
  all: rewrite lookup_insert_eq; run.
  all: rewrite decide_True by set_solver; run.
  all: intros [= ? ? ?]; subst; cbn.
  all: split; [done|]; split; [apply open_then_close, fresh_addr_not_handle|].
  all: right; split; [done|]; split; [done|]; split; [apply fresh_addr_not_null|].
  all: rewrite lookup_insert_eq; eauto.
Qed.

Lemma proc_list_returns_balanced_witness :
  exists out' s',
    procList {| procList := C.NULL; procCount := 0 |} = C.NULL
    ∧ kvm_handles s' = kvm_handles init_state
    ∧ ((exists en, env_kvm_openfiles Scenario.two_procs (clock init_state) = Failure en
          ∧ 0 = en ∧ out' = {| procList := C.NULL; procCount := 0 |}
          ∧ heap s' = heap init_state)
       ∨ (env_kvm_openfiles Scenario.two_procs (clock init_state) = Success
          ∧ 0 = 0 ∧ procList out' ≠ C.NULL ∧ is_Some (heap s' !! procList out'))).
Proof.
  eexists _, _.
  apply (proc_list_returns_balanced Scenario.two_procs
           {| procList := C.NULL; procCount := 0 |} _ init_state _ 0).
  vm_compute. reflexivity.
Defined.

(** X4. When the allocation of the copy fails, [psutil_get_proc_list]
    does not return: after storing [cnt] in [*procCount] and the null
    result of [malloc] in [*procList] it prints its marker and ends the
    process with status 1.  Nothing is copied, the heap is as before and
    the handle it opened is still open. *)
Theorem proc_list_alloc_failure_exits (e : Env) (out : proc_out) (s : state)
    (ps : list kinfo_proc) :
  let cnt := C.to_int (Z.of_nat (length ps)) in
  let mlen := C.to_size_t (C.to_size_t cnt * sizeof_kinfo_proc e) in
  procList out = C.NULL ->
  env_kvm_openfiles e (clock s) = Success ->
  env_kvm_getprocs e (S (clock s)) = ProcsOk ps ->
  env_alloc e (S (S (clock s))) mlen = AllocFail ->
  exists s',
    psutil_get_proc_list e out s = (Exited 1, s')
    ∧ heap s' = heap s
    ∧ kvm_handles s' = {[fresh_addr s]} ∪ kvm_handles s
    ∧ new_events s s' =
        [EvKvmOpenfiles (fresh_addr s); EvKvmGetprocs (fresh_addr s) (ProcsOk ps);
         EvStore "procCount" (C.to_size_t cnt); EvMalloc mlen C.NULL;
         EvStore "procList" C.NULL;
         EvStderr ("ZZZZZZZZZZZZZZZZZZ" ++ nl); EvErr 1].
Proof.
  intros cnt mlen Hout Ho Hg Ha.
  unfold psutil_get_proc_list, assert, kvm_openfiles, kvm_getprocs, malloc, store,
    fprintf_stderr, err.
  rewrite Hout. run. rewrite Ho. run.
  rewrite decide_True by set_solver. run. rewrite Hg. run.
  fold cnt. fold mlen. rewrite Ha. run.
  eexists. split; [reflexivity|]. split; [reflexivity|]. split; [reflexivity|].
  apply new_events_app. cbn. by rewrite <- !app_assoc.
Qed.

Lemma proc_list_alloc_failure_exits_witness :
  exists s',
    psutil_get_proc_list Scenario.no_memory {| procList := C.NULL; procCount := 0 |}
      init_state = (Exited 1, s')
    ∧ heap s' = heap init_state
    ∧ kvm_handles s' = {[fresh_addr init_state]} ∪ kvm_handles init_state
    ∧ new_events init_state s' =
        [EvKvmOpenfiles (fresh_addr init_state);
         EvKvmGetprocs (fresh_addr init_state)
           (ProcsOk [ {| p_pid := 1; p_opaque := [] |};
                      {| p_pid := 4242; p_opaque := [7] |} ]);
         EvStore "procCount" (C.to_size_t (C.to_int 2));
         EvMalloc (C.to_size_t (C.to_size_t (C.to_int 2) * 644)) C.NULL;
         EvStore "procList" C.NULL;
         EvStderr ("ZZZZZZZZZZZZZZZZZZ" ++ nl); EvErr 1].
Proof.
  apply (proc_list_alloc_failure_exits Scenario.no_memory
           {| procList := C.NULL; procCount := 0 |} init_state
           [ {| p_pid := 1; p_opaque := [] |}; {| p_pid := 4242; p_opaque := [7] |} ]).
  - reflexivity.
  - reflexivity.
  - reflexivity.
  - reflexivity.
Defined.

(** ** The size-then-fetch readers *)

(** X5. A non-null result of [psutil_get_cmd_path] is a block that was
    not live before the call and is the only change to the heap; its
    capacity is the size stored in [*pathsize]. *)
Theorem cmd_path_result_is_new_block (e : Env) (pid pathsize : Z) (s s' : state)
    (p sz : Z) :
  psutil_get_cmd_path e pid pathsize s = (Done (p, sz), s') ->
  p ≠ C.NULL ->
  heap s !! p = None
  ∧ exists d, heap s' = <[p := {| blk_size := sz; blk_data := d |}]> (heap s).
Proof.
  unfold psutil_get_cmd_path, sysctl, malloc, store, free, PyErr_NoMemory. run.
  destruct (env_sysctl e (clock s) _ _ _) as [n d|en]; run;
    [|intros [= <- <- <-]; congruence].
  destruct (env_alloc e (S (clock s)) _); run;
    try (intros [= <- <- <-]; congruence).
  all: destruct (env_sysctl e (S (S (clock s))) _ _ _) as [n2 d2|en2]; run;
    rewrite lookup_insert_eq; run; intros [= <- <- <-] Hp; try congruence.
  all: split; [apply fresh_addr_not_live|]; exists d2; cbn.
  all: by rewrite insert_insert_eq.
Qed.

Lemma cmd_path_result_is_new_block_witness :
  exists s',
    heap init_state !! fresh_addr init_state = None
    ∧ exists d, heap s' = <[fresh_addr init_state :=
                              {| blk_size := C.to_size_t 6; blk_data := d |}]>
                            (heap init_state).
Proof.
  eexists.
  apply (cmd_path_result_is_new_block Scenario.two_procs 4242 0 init_state _
           (fresh_addr init_state) (C.to_size_t 6)).
  - vm_compute. reflexivity.
  - vm_compute. discriminate.
Defined.

(** X6. When both queries and the allocation succeed,
    [psutil_get_cmd_path] returns the new buffer filled by the second
    query, and [*pathsize] is the size reported by the sizing query,
    whatever length the second query reported. *)
Theorem cmd_path_success_reports_probed_size (e : Env) (pid pathsize : Z) (s : state)
    (n n2 : Z) (d d2 : contents) :
  env_sysctl e (clock s) (cmd_mib pid) false 0 = SysOk n d ->
  env_alloc e (S (clock s)) (C.to_size_t n) ≠ AllocFail ->
  env_sysctl e (S (S (clock s))) (cmd_mib pid) true (C.to_size_t n) = SysOk n2 d2 ->
  exists s',
    psutil_get_cmd_path e pid pathsize s = (Done (fresh_addr s, C.to_size_t n), s')
    ∧ heap s' = <[fresh_addr s := {| blk_size := C.to_size_t n; blk_data := d2 |}]> (heap s)
    ∧ pyerr s' = pyerr s
    ∧ new_events s s' =
        [EvSysctl (cmd_mib pid) C.NULL 0 (SysOk n d);
         EvMalloc (C.to_size_t n) (fresh_addr s);
         EvStore "pathsize" (C.to_size_t n);
         EvSysctl (cmd_mib pid) (fresh_addr s) (C.to_size_t n) (SysOk n2 d2)].
Proof.
  intros Hq1 Ha Hq2. unfold psutil_get_cmd_path, sysctl, malloc, store, free.
  fold (cmd_mib pid). run. rewrite Hq1. run.
  rewrite (alloc_reply_cases _ _ _ _ Ha). run.
  rewrite Hq2. run.
  rewrite lookup_insert_eq. run.
  eexists. split; [reflexivity|]. split; [|split; [reflexivity|]].
  - cbn. by rewrite insert_insert_eq.
  - apply new_events_app. cbn. by rewrite <- !app_assoc.
Qed.

Lemma cmd_path_success_reports_probed_size_witness :
  exists s',
    psutil_get_cmd_path Scenario.two_procs 4242 0 init_state
    = (Done (fresh_addr init_state, C.to_size_t 6), s')
    ∧ heap s' = <[fresh_addr init_state :=
                    {| blk_size := C.to_size_t 6;
                       blk_data := RawArgs [115; 104; 0; 45; 99; 0] |}]> (heap init_state)
    ∧ pyerr s' = pyerr init_state
    ∧ new_events init_state s' =
        [EvSysctl (cmd_mib 4242) C.NULL 0 (SysOk 6 Uninit);
         EvMalloc (C.to_size_t 6) (fresh_addr init_state);
         EvStore "pathsize" (C.to_size_t 6);
         EvSysctl (cmd_mib 4242) (fresh_addr init_state) (C.to_size_t 6)
           (SysOk 6 (RawArgs [115; 104; 0; 45; 99; 0]))].
Proof.
  apply (cmd_path_success_reports_probed_size Scenario.two_procs 4242 0 init_state
           6 6 Uninit (RawArgs [115; 104; 0; 45; 99; 0])).
  - reflexivity.
  - vm_compute. discriminate.
  - reflexivity.
Defined.

(** X7. When [malloc] fails, either reader sets [MemoryError] and returns
    [NULL] right after its first query: the second query is not issued,
    and the heap and the caller's size variable are as before. *)
Theorem cmd_readers_alloc_failure_sets_memory_error (e : Env) (pid out : Z) (s : state) :
  (forall n d,
     env_sysctl e (clock s) (cmd_mib pid) false 0 = SysOk n d ->
     env_alloc e (S (clock s)) (C.to_size_t n) = AllocFail ->
     exists s',
       psutil_get_cmd_path e pid out s = (Done (C.NULL, out), s')
       ∧ heap s' = heap s
       ∧ pyerr s' = Some MemoryError
       ∧ new_events s s' =
           [EvSysctl (cmd_mib pid) C.NULL 0 (SysOk n d);
            EvMalloc (C.to_size_t n) C.NULL; EvPyErr MemoryError])
  ∧ (forall n v,
       env_sysctl e (clock s) argmax_mib true C.sizeof_int = SysOk n (IntValue v) ->
       env_alloc e (S (clock s)) (C.to_size_t (C.to_int v)) = AllocFail ->
       exists s',
         psutil_get_cmd_args e pid out s = (Done (C.NULL, out), s')
         ∧ heap s' = heap s
         ∧ pyerr s' = Some MemoryError
         ∧ new_events s s' =
             [EvSysctl argmax_mib LOCAL C.sizeof_int (SysOk n (IntValue v));
              EvMalloc (C.to_size_t (C.to_int v)) C.NULL; EvPyErr MemoryError]).
Proof.
  split.
  - intros n d Hq Ha.
    unfold psutil_get_cmd_path, sysctl, malloc, PyErr_NoMemory.
    fold (cmd_mib pid). run. rewrite Hq. run. rewrite Ha. run.
    eexists. split; [reflexivity|]. split; [reflexivity|]. split; [reflexivity|].
    apply new_events_app. cbn. by rewrite <- !app_assoc.
  - intros n v Hq Ha.
    unfold psutil_get_cmd_args, sysctl_int, malloc, PyErr_NoMemory.
    fold argmax_mib. run. rewrite Hq. run. rewrite Ha. run.
    eexists. split; [reflexivity|]. split; [reflexivity|]. split; [reflexivity|].
    apply new_events_app. cbn. by rewrite <- !app_assoc.
Qed.

Lemma cmd_readers_alloc_failure_sets_memory_error_witness :
  (exists s',
     psutil_get_cmd_path Scenario.no_memory 4242 11 init_state = (Done (C.NULL, 11), s')
     ∧ pyerr s' = Some MemoryError)
  ∧ (exists s',
       psutil_get_cmd_args Scenario.no_memory 4242 11 init_state = (Done (C.NULL, 11), s')
       ∧ pyerr s' = Some MemoryError).
Proof.
  destruct (cmd_readers_alloc_failure_sets_memory_error Scenario.no_memory 4242 11
              init_state) as [Hpath Hargs].
  split.
  - destruct (Hpath 6 Uninit) as (s' & Hrun & _ & Hpy & _);
      [reflexivity|reflexivity|]. by exists s'.
  - destruct (Hargs 4 262144) as (s' & Hrun & _ & Hpy & _);
      [reflexivity|reflexivity|]. by exists s'.
Defined.

(** X8. [psutil_get_cmd_args] writes [*argsize] on success only: whenever
    it returns [NULL], the caller's [*argsize] is what it was before the
    call. *)
Theorem cmd_args_failure_keeps_argsize (e : Env) (pid argsize : Z) (s s' : state)
    (sz : Z) :
  psutil_get_cmd_args e pid argsize s = (Done (C.NULL, sz), s') ->
  sz = argsize
  ∧ Forall (fun ev => forall v, ev ≠ EvStore "argsize" v) (new_events s s').
Proof.
  unfold psutil_get_cmd_args, sysctl_int, sysctl, malloc, store, free, PyErr_NoMemory,
    new_events. run.
  destruct (env_sysctl e (clock s) _ _ _) as [n d|en]; run.
  2:{ intros [= <- <-]. split; [done|]. cbn. rewrite drop_app_length.
      repeat constructor; intros v [=]. }
  destruct d; run; try discriminate.
  destruct (env_alloc e (S (clock s)) _); run.
  1:{ intros [= <- <-]. split; [done|]. cbn. rewrite <- !app_assoc, drop_app_length.
      repeat constructor; intros w [=]. }
  all: destruct (env_sysctl e (S (S (clock s))) _ _ _) as [n2 d2|en2]; run;
    rewrite lookup_insert_eq; run; intros Heq; injection Heq; intros; subst;
    try (exfalso; eapply fresh_addr_not_null; eassumption).
  all: split; [done|]; cbn; rewrite <- !app_assoc, drop_app_length.
  all: repeat constructor; intros w [=].
Qed.

Lemma cmd_args_failure_keeps_argsize_witness :
  exists s',
    11 = 11
    ∧ Forall (fun ev => forall v, ev ≠ EvStore "argsize" v) (new_events init_state s').
Proof.
  eexists.
  apply (cmd_args_failure_keeps_argsize Sample.vanishing 1 11 init_state _ 11).
  vm_compute. reflexivity.
Defined.

(** X9. When both queries and the allocation succeed,
    [psutil_get_cmd_args] returns a new buffer of [KERN_ARGMAX] bytes
    filled by the second query and stores in [*argsize] the length that
    query reported. *)
Theorem cmd_args_success_reports_fetched_size (e : Env) (pid argsize : Z) (s : state)
    (n v n2 : Z) (d2 : contents) :
  let cap := C.to_size_t (C.to_int v) in
  env_sysctl e (clock s) argmax_mib true C.sizeof_int = SysOk n (IntValue v) ->
  env_alloc e (S (clock s)) cap ≠ AllocFail ->
  env_sysctl e (S (S (clock s))) (cmd_mib pid) true cap = SysOk n2 d2 ->
  exists s',
    psutil_get_cmd_args e pid argsize s = (Done (fresh_addr s, C.to_size_t n2), s')
    ∧ heap s' = <[fresh_addr s := {| blk_size := cap; blk_data := d2 |}]> (heap s)
    ∧ pyerr s' = pyerr s
    ∧ new_events s s' =
        [EvSysctl argmax_mib LOCAL C.sizeof_int (SysOk n (IntValue v));
         EvMalloc cap (fresh_addr s);
         EvSysctl (cmd_mib pid) (fresh_addr s) cap (SysOk n2 d2);
         EvStore "argsize" (C.to_size_t n2)].
Proof.
  intros cap Hq1 Ha Hq2. unfold psutil_get_cmd_args, sysctl_int, sysctl, malloc, store.
  fold (cmd_mib pid). fold argmax_mib. run. rewrite Hq1. run. fold cap.
  rewrite (alloc_reply_cases _ _ _ _ Ha). run.
  rewrite Hq2. run.
  rewrite lookup_insert_eq. run.
  eexists. split; [reflexivity|]. split; [|split; [reflexivity|]].
  - cbn. by rewrite insert_insert_eq.
  - apply new_events_app. cbn. by rewrite <- !app_assoc.
Qed.

Lemma cmd_args_success_reports_fetched_size_witness :
  exists s',
    psutil_get_cmd_args Scenario.two_procs 4242 0 init_state
    = (Done (fresh_addr init_state, C.to_size_t 6), s')
    ∧ heap s' = <[fresh_addr init_state :=
                    {| blk_size := C.to_size_t (C.to_int 262144);
                       blk_data := RawArgs [115; 104; 0; 45; 99; 0] |}]> (heap init_state)
    ∧ pyerr s' = pyerr init_state
    ∧ new_events init_state s' =
        [EvSysctl argmax_mib LOCAL C.sizeof_int (SysOk 4 (IntValue 262144));
         EvMalloc (C.to_size_t (C.to_int 262144)) (fresh_addr init_state);
         EvSysctl (cmd_mib 4242) (fresh_addr init_state) (C.to_size_t (C.to_int 262144))
           (SysOk 6 (RawArgs [115; 104; 0; 45; 99; 0]));
         EvStore "argsize" (C.to_size_t 6)].
Proof.
  apply (cmd_args_success_reports_fetched_size Scenario.two_procs 4242 0 init_state
           4 262144 6 (RawArgs [115; 104; 0; 45; 99; 0])).
  - reflexivity.
  - vm_compute. discriminate.
  - reflexivity.
Defined.

(** X10. When the [KERN_ARGMAX] query fails, [psutil_get_cmd_args]
    returns [NULL] after that one call: nothing is allocated, the process
    identifier is never sent to the kernel, and the heap and [*argsize]
    are as before. *)
Theorem cmd_args_argmax_failure_asks_nothing_else (e : Env) (pid argsize : Z)
    (s : state) (en : Z) :
  env_sysctl e (clock s) argmax_mib true C.sizeof_int = SysErr en ->
  exists s',
    psutil_get_cmd_args e pid argsize s = (Done (C.NULL, argsize), s')
    ∧ heap s' = heap s
    ∧ new_events s s' = [EvSysctl argmax_mib LOCAL C.sizeof_int (SysErr en)].
Proof.
  intros Hq. unfold psutil_get_cmd_args, sysctl_int. fold argmax_mib. run.
  rewrite Hq. run.
  eexists. split; [reflexivity|]. split; [reflexivity|]. by apply new_events_app.
Qed.

Lemma cmd_args_argmax_failure_asks_nothing_else_witness :
  exists s',
    psutil_get_cmd_args Scenario.denied 4242 11 init_state = (Done (C.NULL, 11), s')
    ∧ heap s' = heap init_state
    ∧ new_events init_state s' = [EvSysctl argmax_mib LOCAL C.sizeof_int (SysErr C.EPERM)].
Proof.
  apply (cmd_args_argmax_failure_asks_nothing_else Scenario.denied 4242 11 init_state
           C.EPERM).
  reflexivity.
Defined.

(** X11. Neither reader retries: whatever the kernel and the allocator
    answer, a call of [psutil_get_cmd_path] or [psutil_get_cmd_args]
    makes at most two [sysctl] calls and at most one allocation. *)
Theorem cmd_readers_never_retry (e : Env) (pid out : Z) (s : state) :
  let evs1 := new_events s (psutil_get_cmd_path e pid out s).2 in
  let evs2 := new_events s (psutil_get_cmd_args e pid out s).2 in
  (length (sysctl_replies evs1) <= 2)%nat ∧ (length (allocations evs1) <= 1)%nat
  ∧ (length (sysctl_replies evs2) <= 2)%nat ∧ (length (allocations evs2) <= 1)%nat.
Proof.
  cbn zeta. split; [|split; [|split]].
  all: unfold psutil_get_cmd_path, psutil_get_cmd_args, sysctl_int, sysctl, malloc,
         store, free, PyErr_NoMemory, new_events, sysctl_replies, allocations; run.
  all: destruct (env_sysctl e (clock s) _ _ _) as [n d|en]; run;
         [|cbn; rewrite drop_app_length; cbn; lia].
  all: try (destruct d; run; try (cbn; rewrite drop_app_length; cbn; lia)).
  all: destruct (env_alloc e (S (clock s)) _); run;
         try (cbn; rewrite <- !app_assoc, drop_app_length; cbn; lia).
  all: destruct (env_sysctl e (S (S (clock s))) _ _ _) as [n2 d2|en2]; run;
         rewrite lookup_insert_eq; run;
         cbn; rewrite <- !app_assoc, drop_app_length; cbn; lia.
Qed.

(** ** The growth loop *)

Lemma wrapping_lookup (n : nat) : forall (c : Z) (i : nat),
  0 <= c < 2 ^ 64 -> (i < n)%nat ->
  wrapping c n !! i = Some ((c * 2 ^ Z.of_nat i) mod 2 ^ 64).
Proof.
  induction n as [|n IH]; intros c i Hc Hi; [lia|].
  destruct i as [|i]; cbn.
  - f_equal. rewrite Z.mul_1_r, Z.mod_small; lia.
  - rewrite IH; [|unfold C.to_size_t, C.SIZE_MOD; apply Z.mod_pos_bound; lia|lia].
    f_equal. unfold C.to_size_t, C.SIZE_MOD.
    rewrite Z.mul_mod_idemp_l by lia. f_equal.
    replace (Z.of_nat (S i)) with (Z.succ (Z.of_nat i)) by lia.
    rewrite Z.pow_succ_r by lia. lia.
Qed.

Lemma loop_run_wrapping (e : Env) (mib : list Z) (s' : state) (ok : Prop)
    fuel t c evs o :
  loop_run e mib s' ok fuel t c evs o ->
  capacities evs = wrapping c (length (capacities evs)).
Proof.
  unfold capacities.
  induction 1 as [| | | | | |ok fuel t c old p evs o Hp Ha Hq Hrun IH]; cbn; try done.
  by rewrite <- IH.
Qed.

(** X12. In every run of [get_argv] the capacity asked of [realloc] in
    round [i] is [128 * 2^i] reduced modulo [2^64], the width of
    [size_t]: each retry doubles the size with wrap-around, so that from
    the 58th round on the function asks for a buffer of 0 bytes. *)
Theorem get_argv_capacity_wraps_to_zero (fuel : nat) (e : Env) (pid : Z) (s : state) :
  let caps := capacities (new_events s (get_argv fuel e pid s).2) in
  (forall i, (i < length caps)%nat ->
     caps !! i = Some ((128 * 2 ^ Z.of_nat i) mod 2 ^ 64))
  ∧ (forall i, (57 <= i < length caps)%nat -> caps !! i = Some 0).
Proof.
  cbn zeta. rewrite get_argv_loop_eq. cbn [fst snd].
  destruct (get_argv_loop_run fuel e (argv_mib pid) 128 s) as (evs & Htr & Hrun).
  rewrite (new_events_app _ _ _ Htr).
  rewrite (loop_run_wrapping _ _ _ _ _ _ _ _ _ Hrun), length_wrapping.
  assert (Hlook : forall i, (i < length (capacities evs))%nat ->
            wrapping 128 (length (capacities evs)) !! i
            = Some ((128 * 2 ^ Z.of_nat i) mod 2 ^ 64)).
  { intros i Hi. apply wrapping_lookup; [done|lia]. }
  split; [exact Hlook|].
  intros i [Hlo Hhi]. rewrite Hlook by done. f_equal.
  replace (Z.of_nat i) with (57 + (Z.of_nat i - 57)) by lia.
  rewrite Z.pow_add_r by lia.
  replace (128 * (2 ^ 57 * 2 ^ (Z.of_nat i - 57)))
    with (2 ^ (Z.of_nat i - 57) * 2 ^ 64) by (change (2 ^ 64) with (128 * 2 ^ 57); lia).
  apply Z.mod_mul. lia.
Qed.

Lemma get_argv_capacity_wraps_to_zero_witness :
  let caps := capacities (new_events init_state
                            (get_argv 60 Scenario.always_too_small 1 init_state).2) in
  caps !! 57%nat = Some 0.
Proof.
  apply (get_argv_capacity_wraps_to_zero 60 Scenario.always_too_small 1 init_state).
  vm_compute. split; [lia|]. lia.
Defined.

Lemma loop_run_endless (e : Env) (mib : list Z) (s' : state) (ok : Prop)
    fuel t c evs o :
  (forall t' c', env_sysctl e t' mib true c' = SysErr C.ENOMEM) ->
  (forall t' c', env_alloc e t' c' ≠ AllocFail) ->
  loop_run e mib s' ok fuel t c evs o ->
  ok -> o = OutOfFuel ∧ length (capacities evs) = fuel.
Proof.
  intros Hk Hal. unfold capacities.
  induction 1 as [| |ok fuel t c old Ha|ok fuel t c old p n d Hp Ha Hq|
                  ok fuel t c old p Hp Ha Hq|ok fuel t c old p en Hp Ha Hq|
                  ok fuel t c old p evs o Hp Ha Hq Hrun IH]; intros Hok.
  - done.
  - contradiction.
  - by apply Hal in Ha.
  - rewrite Hk in Hq. discriminate.
  - rewrite Hk in Hq. discriminate.
  - rewrite Hk in Hq. congruence.
  - destruct (IH I) as [-> Hlen]. split; [done|]. cbn. by rewrite Hlen.
Qed.

(** X13. The retries of [get_argv] have no upper limit of their own.
    With a kernel that answers "too small" to every query and an
    allocator that never fails, the loop is still running after any
    number of rounds. *)
Theorem get_argv_retries_without_limit (e : Env) (pid : Z) (s : state) :
  static_ok s ->
  (forall t c, env_sysctl e t (argv_mib pid) true c = SysErr C.ENOMEM) ->
  (forall t c, env_alloc e t c ≠ AllocFail) ->
  forall fuel,
    (get_argv fuel e pid s).1 = OutOfFuel
    ∧ length (capacities (new_events s (get_argv fuel e pid s).2)) = fuel.
Proof.
  intros Hok Hk Hal fuel. rewrite get_argv_loop_eq. cbn [fst snd].
  destruct (get_argv_loop_run fuel e (argv_mib pid) 128 s) as (evs & Htr & Hrun).
  rewrite (new_events_app _ _ _ Htr).
  destruct (loop_run_endless _ _ _ _ _ _ _ _ _ Hk Hal Hrun Hok) as [-> Hlen].
  done.
Qed.

Lemma get_argv_retries_without_limit_witness :
  (get_argv 100 Scenario.always_too_small 1 init_state).1 = OutOfFuel
  ∧ length (capacities (new_events init_state
                          (get_argv 100 Scenario.always_too_small 1 init_state).2))
    = 100%nat.
Proof.
  apply (get_argv_retries_without_limit Scenario.always_too_small 1 init_state).
  - left. reflexivity.
  - intros t c. reflexivity.
  - intros t c. vm_compute. discriminate.
Defined.

Lemma loop_run_fatal (e : Env) (mib : list Z) (s' : state) (ok : Prop)
    fuel t c evs o :
  loop_run e mib s' ok fuel t c evs o ->
  forall i en, sysctl_replies evs !! i = Some (SysErr en) ->
    en ≠ C.ESRCH -> en ≠ C.ENOMEM ->
    length (sysctl_replies evs) = S i
    ∧ length (capacities evs) = S i
    ∧ o = Exited 1.
Proof.
  unfold sysctl_replies, capacities.
  induction 1 as [| | | | | |ok fuel t c old p evs o Hp Ha Hq Hrun IH]; cbn.
  1-6: intros [|i] en' Hi Hn1 Hn2; cbn in Hi; try discriminate; try done.
  - injection Hi as [= <-]. contradiction.
  - intros [|i] en' Hi Hn1 Hn2; cbn in Hi; [congruence|].
    destruct (IH i en' Hi Hn1 Hn2) as (-> & -> & ->). done.
Qed.

(** X14. In [get_argv] a [sysctl] failure other than "no such process"
    ([ESRCH]) and "too small" ([ENOMEM]) is the last call of the
    function: it is not retried, nothing is returned to the caller, and
    the process is ended with status 1. *)
Theorem get_argv_other_errors_end_the_process (fuel : nat) (e : Env) (pid : Z)
    (s : state) :
  let r := get_argv fuel e pid s in
  forall i en,
    sysctl_replies (new_events s r.2) !! i = Some (SysErr en) ->
    en ≠ C.ESRCH -> en ≠ C.ENOMEM ->
    length (sysctl_replies (new_events s r.2)) = S i
    ∧ length (capacities (new_events s r.2)) = S i
    ∧ r.1 = Exited 1.
Proof.
  cbn zeta. rewrite get_argv_loop_eq. cbn [fst snd].
  destruct (get_argv_loop_run fuel e (argv_mib pid) 128 s) as (evs & Htr & Hrun).
  rewrite (new_events_app _ _ _ Htr).
  intros i en Hi H1 H2.
  destruct (loop_run_fatal _ _ _ _ _ _ _ _ _ Hrun i en Hi H1 H2) as (? & ? & ->).
  done.
Qed.

Lemma get_argv_other_errors_end_the_process_witness :
  let r := get_argv 4 Scenario.denied 4242 init_state in
  length (sysctl_replies (new_events init_state r.2)) = 1%nat
  ∧ length (capacities (new_events init_state r.2)) = 1%nat
  ∧ r.1 = Exited 1.
Proof.
  apply (get_argv_other_errors_end_the_process 4 Scenario.denied 4242 init_state
           0%nat C.EPERM).
  - vm_compute. reflexivity.
  - vm_compute. discriminate.
  - vm_compute. discriminate.
Defined.

(** *** What the growth loop leaves alone *)

Lemma get_argv_loop_round_frame (fuel : nat) (e : Env) (mib : list Z) (c : Z)
    (s : state) (old p : Z) (b : block) (h : gmap Z block) :
  (forall c' s1, get_argv_frame s1 (get_argv_loop fuel e mib c' s1).2) ->
  let s1 := set_get_argv_argv p
              (emit (EvRealloc old c p) (set_heap (<[p := b]> h) (tick s))) in
  p ≠ C.NULL ->
  get_argv_frame s1 ((x ← sysctl e mib p c; after_sysctl fuel e mib x) s1).2.
Proof.
  intros IH s1 Hp. subst s1.
  unfold sysctl, after_sysctl, PyErr_SetFromErrno_OSError, err. run.
  apply Z.eqb_neq in Hp as Hpb. rewrite Hpb. cbn [negb].
  destruct (env_sysctl e (S (clock s)) mib true c) as [n d|en] eqn:Hq; run.
  - rewrite lookup_insert_eq. run.
    split; [done|]. split; [done|]. split.
    + intros _. right. cbn. rewrite lookup_insert_eq. eauto.
    + cbn. intros q b0 Hne Hb0. rewrite lookup_insert_ne by done. done.
  - destruct (Z.eqb_spec en C.ESRCH) as [->|Hne1]; run.
    { split; [done|]. split; [done|]. split; [|done].
      intros _. right. cbn. rewrite lookup_insert_eq. eauto. }
    destruct (Z.eqb_spec en C.ENOMEM) as [->|Hne2]; run.
    2:{ split; [done|]. split; [done|]. split; [|done].
        intros _. right. cbn. rewrite lookup_insert_eq. eauto. }
    match goal with |- context [get_argv_loop fuel e mib ?c' ?s1] =>
      destruct (IH c' s1) as (Hk & Ha & Hs & Hf) end.
    split; [exact Hk|]. split; [exact Ha|]. split.
    + intros _. apply Hs. right. cbn. rewrite lookup_insert_eq. eauto.
    + exact Hf.
Qed.

Lemma get_argv_loop_frame (fuel : nat) (e : Env) (mib : list Z) :
  forall (c : Z) (s : state), get_argv_frame s (get_argv_loop fuel e mib c s).2.
Proof.
  induction fuel as [|fuel IH]; intros c s.
  - cbn. by repeat split.
  - change (get_argv_loop (S fuel) e mib c s) with
      ((s0 ← get;
        p ← realloc e (get_argv_argv s0) c;
        modify (set_get_argv_argv p);;
        if p =? C.NULL then err 1
        else x ← sysctl e mib p c; after_sysctl fuel e mib x) s).
    unfold realloc. run.
    destruct (Z.eqb_spec (get_argv_argv s) C.NULL) as [Hnull|Hlive].
    + assert (Hround : forall b,
        get_argv_frame s
          ((x ← sysctl e mib (fresh_addr s) c; after_sysctl fuel e mib x)
             (set_get_argv_argv (fresh_addr s)
                (emit (EvRealloc C.NULL c (fresh_addr s))
                   (set_heap (<[fresh_addr s := b]> (heap s)) (tick s))))).2).
      { intros b.
        destruct (get_argv_loop_round_frame fuel e mib c s C.NULL (fresh_addr s) b
                    (heap s) IH (fresh_addr_not_null s)) as (Hk & Ha & Hs & Hf).
        split; [exact Hk|]. split; [exact Ha|]. split.
        - intros _. apply Hs. right. cbn. rewrite lookup_insert_eq. eauto.
        - intros q b0 Hq Hb0. apply Hf; cbn.
          + intros ->. pose proof (fresh_addr_not_live s). congruence.
          + rewrite lookup_insert_ne; [done|].
            intros <-. pose proof (fresh_addr_not_live s). congruence. }
      destruct (env_alloc e (clock s) c) eqn:Ha; run; rewrite ?Hnull.
      * unfold err. run. split; [done|]. split; [done|]. split; [|done].
        intros _. by left.
      * apply Hround.
      * apply Hround.
    + assert (Hl := proj2 (Z.eqb_neq _ _) Hlive).
      destruct (heap s !! get_argv_argv s) as [b|] eqn:Hb; run.
      2:{ by repeat split. }
      destruct (env_alloc e (clock s) c) eqn:Ha; run; rewrite ?Hl.
      * unfold err. run. split; [done|]. split; [done|]. split; [|done].
        intros _. by left.
      * destruct (get_argv_loop_round_frame fuel e mib c s (get_argv_argv s)
                    (get_argv_argv s) (resize c b) (heap s) IH Hlive)
          as (Hk & Haa & Hs & Hf).
        split; [exact Hk|]. split; [exact Haa|]. split.
        -- intros _. apply Hs. right. cbn. rewrite lookup_insert_eq. eauto.
        -- intros q b0 Hq Hb0. apply Hf; cbn; [done|].
           by rewrite lookup_insert_ne.
      * destruct (get_argv_loop_round_frame fuel e mib c s (get_argv_argv s)
                    (fresh_addr s) (resize c b) (delete (get_argv_argv s) (heap s))
                    IH (fresh_addr_not_null s))
          as (Hk & Haa & Hs & Hf).
        split; [exact Hk|]. split; [exact Haa|]. split.
        -- intros _. apply Hs. right. cbn. rewrite lookup_insert_eq. eauto.
        -- intros q b0 Hq Hb0. apply Hf; cbn.
           ++ intros ->. pose proof (fresh_addr_not_live s). congruence.
           ++ rewrite lookup_insert_ne.
              ** by rewrite lookup_delete_ne.
              ** intros <-. pose proof (fresh_addr_not_live s). congruence.
Qed.

(** X15. When [realloc] fails in the first round, [get_argv] ends the
    process with status 1.  The static variable has already been
    overwritten with the null result, while the heap still holds every
    block it held before, the old buffer included. *)
Theorem get_argv_realloc_failure_exits (fuel : nat) (e : Env) (pid : Z) (s : state) :
  static_ok s ->
  env_alloc e (clock s) 128 = AllocFail ->
  exists s',
    get_argv (S fuel) e pid s = (Exited 1, s')
    ∧ get_argv_argv s' = C.NULL
    ∧ heap s' = heap s
    ∧ errno s' = C.ENOMEM
    ∧ new_events s s' = [EvRealloc (get_argv_argv s) 128 C.NULL; EvErr 1].
Proof.
  intros Hok Ha. unfold get_argv.
  change (get_argv_loop (S fuel) e ?mib ?c) with
    (s0 ← get;
     p ← realloc e (get_argv_argv s0) c;
     modify (set_get_argv_argv p);;
     if p =? C.NULL then err 1
     else x ← sysctl e mib p c; after_sysctl fuel e mib x).
  unfold realloc, err. run.
  destruct (Z.eqb_spec (get_argv_argv s) C.NULL) as [Hnull|Hlive].
  - rewrite Ha. run. rewrite Hnull.
    eexists. split; [reflexivity|]. split; [reflexivity|]. split; [reflexivity|].
    split; [reflexivity|]. apply new_events_app. cbn. by rewrite <- !app_assoc.
  - destruct Hok as [?|[b Hb]]; [contradiction|]. rewrite Hb. run. rewrite Ha. run.
    eexists. split; [reflexivity|]. split; [reflexivity|]. split; [reflexivity|].
    split; [reflexivity|]. apply new_events_app. cbn. by rewrite <- !app_assoc.
Qed.

Lemma get_argv_realloc_failure_exits_witness :
  exists s',
    get_argv 1 Scenario.no_memory 4242 init_state = (Exited 1, s')
    ∧ get_argv_argv s' = C.NULL
    ∧ heap s' = heap init_state
    ∧ errno s' = C.ENOMEM
    ∧ new_events init_state s' = [EvRealloc (get_argv_argv init_state) 128 C.NULL; EvErr 1].
Proof.
  apply (get_argv_realloc_failure_exits 0 Scenario.no_memory 4242 init_state).
  - left. reflexivity.
  - reflexivity.
Defined.

(** X16. [get_argv] works on its static buffer only.  Whatever the
    outcome, every heap block other than that buffer is left as it was,
    the open kvm handles and the static variable of
    [psutil_get_arg_list] are unchanged, and the static buffer is again
    null or a live block when it was so before the call. *)
Theorem get_argv_touches_only_its_buffer (fuel : nat) (e : Env) (pid : Z) (s : state) :
  let s' := (get_argv fuel e pid s).2 in
  kvm_handles s' = kvm_handles s
  ∧ arg_list_argv s' = arg_list_argv s
  ∧ (static_ok s -> static_ok s')
  ∧ (forall q b, q ≠ get_argv_argv s -> heap s !! q = Some b -> heap s' !! q = Some b).
Proof.
  cbn zeta. rewrite get_argv_loop_eq. cbn [snd].
  exact (get_argv_loop_frame fuel e (argv_mib pid) 128 s).
Qed.

(** ** The Python wrapper *)

Lemma loop_run_return (e : Env) (mib : list Z) (s' : state) (ok : Prop)
    fuel t c evs o :
  loop_run e mib s' ok fuel t c evs o ->
  forall v, o = Done (Return v) -> v = C.NULL ∧ pyerr s' = Some (OSError C.ESRCH).
Proof.
  induction 1 as [| | | |ok fuel t c old p Hp Ha Hq Hpy| |
                  ok fuel t c old p evs o Hp Ha Hq Hrun IH]; intros v Hv;
    try discriminate.
  - injection Hv as [= <-]. done.
  - by apply IH.
Qed.

Lemma arg_list_eq (fuel : nat) (e : Env) (pid : Z) (s : state) :
  0 <= pid ->
  psutil_get_arg_list fuel e pid s =
    match (get_argv_loop fuel e (argv_mib pid) 128 s).1 with
    | Done Break => (Undefined, (get_argv_loop fuel e (argv_mib pid) 128 s).2)
    | Done (Return v) =>
        (modify (set_arg_list_argv v);;
         if v =? C.NULL then ret PyNULL
         else
           s0 ← get;
           match blk_data <$> heap s0 !! v with
           | Some (ArgvLayout args) =>
               ret (foldl PyList_Append Py_BuildValue_empty_list args)
           | _ => stop Undefined
           end) (get_argv_loop fuel e (argv_mib pid) 128 s).2
    | Exited st => (Exited st, (get_argv_loop fuel e (argv_mib pid) 128 s).2)
    | Aborted => (Aborted, (get_argv_loop fuel e (argv_mib pid) 128 s).2)
    | Undefined => (Undefined, (get_argv_loop fuel e (argv_mib pid) 128 s).2)
    | OutOfFuel => (OutOfFuel, (get_argv_loop fuel e (argv_mib pid) 128 s).2)
    end.
Proof.
  intros Hpid. unfold psutil_get_arg_list.
  destruct (Z.ltb_spec pid 0) as [?|_]; [lia|].
  unfold mbind at 1, M_bind at 1, bind at 1. rewrite get_argv_loop_eq.
  destruct (get_argv_loop fuel e (argv_mib pid) 128 s) as [[[|v]| | | |] s2];
    reflexivity.
Qed.

Lemma loop_run_return_last (e : Env) (mib : list Z) (s' : state) (ok : Prop)
    fuel t c evs o :
  loop_run e mib s' ok fuel t c evs o ->
  forall v, o = Done (Return v) -> last (sysctl_replies evs) = Some (SysErr C.ESRCH).
Proof.
  unfold sysctl_replies.
  induction 1 as [| | | | | |ok fuel t c old p evs o Hp Ha Hq Hrun IH]; intros v Hv;
    try discriminate; cbn.
  - reflexivity.
  - specialize (IH v Hv). destruct (omap _ evs); [discriminate|exact IH].
Qed.

(** X17. For a non-negative identifier the only return of
    [psutil_get_arg_list] that C defines is [NULL]: it follows an [ESRCH]
    answer, with [OSError(ESRCH)] set and the null pointer of [get_argv]
    in its static variable.  When the query of [get_argv] succeeds,
    [get_argv] ends without a [return], so the wrapper tests the value of
    a call that returned none: that run has no defined result, and the
    filled buffer stays in the static variable of [get_argv]. *)
Theorem arg_list_return_paths (fuel : nat) (e : Env) (pid : Z) (s : state) :
  0 <= pid ->
  let r := psutil_get_arg_list fuel e pid s in
  let rs := sysctl_replies (new_events s r.2) in
  (forall v, r.1 = Done v ->
     v = PyNULL
     ∧ pyerr r.2 = Some (OSError C.ESRCH)
     ∧ arg_list_argv r.2 = C.NULL
     ∧ last rs = Some (SysErr C.ESRCH))
  ∧ (forall n d, last rs = Some (SysOk n d) ->
       r.1 = Undefined
       ∧ get_argv_argv r.2 ≠ C.NULL
       ∧ blk_data <$> heap r.2 !! get_argv_argv r.2 = Some d).
Proof.
  intros Hpid. cbn zeta. rewrite (arg_list_eq fuel e pid s Hpid).
  destruct (get_argv_loop_run fuel e (argv_mib pid) 128 s) as (evs & Htr & Hrun).
  pose proof (loop_run_return _ _ _ _ _ _ _ _ _ Hrun) as Hret.
  pose proof (loop_run_return_last _ _ _ _ _ _ _ _ _ Hrun) as Hlast.
  destruct (loop_run_exit _ _ _ _ _ _ _ _ _ Hrun) as [_ Hsucc].
  destruct (get_argv_loop fuel e (argv_mib pid) 128 s) as [o s2].
  cbn [fst snd] in *.
  assert (Hev : new_events s s2 = evs) by by apply new_events_app.
  destruct o as [[|w]| | | |]; cbn [fst snd]; rewrite ?Hev.
  - split; [intros v [=]|]. intros n d Hl.
    destruct (Hsucc n d Hl) as (_ & Hnn & Hd). done.
  - destruct (Hret w eq_refl) as [-> Hpy]. specialize (Hlast _ eq_refl). run.
    change (new_events s (set_arg_list_argv C.NULL s2)) with (new_events s s2).
    rewrite Hev. split.
    + intros v [= <-]. done.
    + intros n d Hl. congruence.
  - split; [intros v [=]|]. intros n d Hl. by destruct (Hsucc n d Hl).
  - split; [intros v [=]|]. intros n d Hl. by destruct (Hsucc n d Hl).
  - split; [intros v [=]|]. intros n d Hl. by destruct (Hsucc n d Hl).
  - split; [intros v [=]|]. intros n d Hl. by destruct (Hsucc n d Hl).
Qed.

Lemma arg_list_return_paths_witness :
  let gone := psutil_get_arg_list 1 Sample.no_procs 4242 init_state in
  let found := psutil_get_arg_list 1 Sample.argv_ready 4242 init_state in
  (gone.1 = Done PyNULL ∧ pyerr gone.2 = Some (OSError C.ESRCH))
  ∧ (found.1 = Undefined
     ∧ blk_data <$> heap found.2 !! get_argv_argv found.2
       = Some (ArgvLayout ["sh"%string])).
Proof.
  intros gone found. split.
  - destruct (arg_list_return_paths 1 Sample.no_procs 4242 init_state) as [Hret _].
    + vm_compute. discriminate.
    + destruct (Hret PyNULL) as (_ & Hpy & _); [vm_compute; reflexivity|].
      split; [vm_compute; reflexivity|exact Hpy].
  - destruct (arg_list_return_paths 1 Sample.argv_ready 4242 init_state) as [_ Hsucc].
    + vm_compute. discriminate.
    + destruct (Hsucc 16 (ArgvLayout ["sh"%string])) as (Hu & _ & Hd);
        [vm_compute; reflexivity|].
      split; [exact Hu|exact Hd].
Defined.

(** The first round of the loop for a process that is gone. *)
Lemma get_argv_loop_gone_at_once (fuel : nat) (e : Env) (mib : list Z) (c : Z)
    (s : state) :
  static_ok s ->
  env_alloc e (clock s) c ≠ AllocFail ->
  env_sysctl e (S (clock s)) mib true c = SysErr C.ESRCH ->
  let r := get_argv_loop (S fuel) e mib c s in
  r.1 = Done (Return C.NULL)
  ∧ get_argv_argv r.2 ≠ C.NULL
  ∧ (exists b, heap r.2 !! get_argv_argv r.2 = Some b ∧ blk_size b = c)
  ∧ pyerr r.2 = Some (OSError C.ESRCH)
  ∧ sysctl_replies (new_events s r.2) = [SysErr C.ESRCH]
  ∧ capacities (new_events s r.2) = [c].
Proof.
  intros Hok Ha Hq. cbn zeta.
  change (get_argv_loop (S fuel) e mib c s) with
    ((s0 ← get;
      p ← realloc e (get_argv_argv s0) c;
      modify (set_get_argv_argv p);;
      if p =? C.NULL then err 1
      else x ← sysctl e mib p c; after_sysctl fuel e mib x) s).
  unfold realloc, sysctl, after_sysctl, PyErr_SetFromErrno_OSError, new_events. run.
  destruct (Z.eqb_spec (get_argv_argv s) C.NULL) as [Hnull|Hlive].
  - rewrite (alloc_reply_cases _ _ _ _ Ha). run. rewrite Hq. run. run.
    split; [done|]. split; [apply fresh_addr_not_null|]. split.
    + eexists. split; [apply lookup_insert_eq|reflexivity].
    + split; [done|]. rewrite <- !app_assoc, drop_app_length. done.
  - assert (Hl := proj2 (Z.eqb_neq _ _) Hlive).
    destruct Hok as [?|[b Hb]]; [contradiction|]. rewrite Hb. run.
    destruct (env_alloc e (clock s) c) eqn:Hal; [contradiction| |]; run; rewrite ?Hl;
      run; rewrite ?Hl; cbn [negb]; rewrite Hq; run; run.
    + split; [done|]. split; [done|]. split.
      * eexists. split; [apply lookup_insert_eq|reflexivity].
      * split; [done|]. rewrite <- !app_assoc, drop_app_length. done.
    + split; [done|]. split; [apply fresh_addr_not_null|]. split.
      * eexists. split; [apply lookup_insert_eq|reflexivity].
      * split; [done|]. rewrite <- !app_assoc, drop_app_length. done.
Qed.

(** X18. For a non-negative identifier of a process that is gone, that
    is when the first query of the loop fails with [ESRCH],
    [psutil_get_arg_list] returns [NULL] with [OSError(ESRCH)] set after
    one [realloc] of 128 bytes and one [sysctl].  The buffer is not
    freed: the static variable of [get_argv] is non-null and points to a
    live block of 128 bytes. *)
Theorem arg_list_process_gone (fuel : nat) (e : Env) (pid : Z) (s : state) :
  0 <= pid ->
  static_ok s ->
  env_alloc e (clock s) 128 ≠ AllocFail ->
  env_sysctl e (S (clock s)) (argv_mib pid) true 128 = SysErr C.ESRCH ->
  let r := psutil_get_arg_list (S fuel) e pid s in
  r.1 = Done PyNULL
  ∧ pyerr r.2 = Some (OSError C.ESRCH)
  ∧ sysctl_replies (new_events s r.2) = [SysErr C.ESRCH]
  ∧ capacities (new_events s r.2) = [128]
  ∧ get_argv_argv r.2 ≠ C.NULL
  ∧ (exists b, heap r.2 !! get_argv_argv r.2 = Some b ∧ blk_size b = 128)
  ∧ arg_list_argv r.2 = C.NULL.
Proof.
  intros Hpid Hok Ha Hq. cbn zeta. rewrite (arg_list_eq (S fuel) e pid s Hpid).
  destruct (get_argv_loop_gone_at_once fuel e (argv_mib pid) 128 s Hok Ha Hq)
    as (Hrun & Hp & Hb & Hpy & Hrs & Hcaps).
  destruct (get_argv_loop (S fuel) e (argv_mib pid) 128 s) as [o s2].
  cbn [fst snd] in *. subst o. run.
  change (new_events s (set_arg_list_argv C.NULL s2)) with (new_events s s2).
  done.
Qed.

Lemma arg_list_process_gone_witness :
  let r := psutil_get_arg_list 1 Sample.no_procs 4242 init_state in
  r.1 = Done PyNULL
  ∧ pyerr r.2 = Some (OSError C.ESRCH)
  ∧ sysctl_replies (new_events init_state r.2) = [SysErr C.ESRCH]
  ∧ capacities (new_events init_state r.2) = [128]
  ∧ get_argv_argv r.2 ≠ C.NULL
  ∧ (exists b, heap r.2 !! get_argv_argv r.2 = Some b ∧ blk_size b = 128)
  ∧ arg_list_argv r.2 = C.NULL.
Proof.
  apply (arg_list_process_gone 0 Sample.no_procs 4242 init_state).
  - vm_compute. discriminate.
  - left. reflexivity.
  - vm_compute. discriminate.
  - reflexivity.
Defined.

(** ** The classifier and its caller *)

(** X19. [psutil_pid_exists] answers 0 or 1 and does nothing but probe:
    for a negative identifier it makes no call at all, otherwise its only
    call is one [kill] with signal 0.  It never sets a Python error and
    never touches the heap or the kvm handles. *)
Theorem pid_exists_only_probes (e : Env) (pid : Z) (s : state) :
  let r := psutil_pid_exists e pid s in
  (r.1 = Done 0 ∨ r.1 = Done 1)
  ∧ heap r.2 = heap s ∧ kvm_handles r.2 = kvm_handles s ∧ pyerr r.2 = pyerr s
  ∧ (pid < 0 -> r = (Done 0, s))
  ∧ (0 <= pid -> new_events s r.2 = [EvKill (C.to_int pid) 0 (probe e s pid)]).
Proof.
  cbn zeta. unfold psutil_pid_exists, probe, kill.
  destruct (Z.ltb_spec pid 0) as [Hneg|Hpos].
  - cbn. repeat split; auto. lia.
  - run.
    destruct (env_kill e (clock s) (C.to_int pid) 0) as [|en]; run.
    + repeat split; auto; [lia|]. intros _. by apply new_events_app.
    + destruct (C.EPERM =? en); cbn; repeat split; auto; try lia;
        intros _; by apply new_events_app.
Qed.

(** X20. [psutil_raise_ad_or_nsp] calls exactly one of the two helpers.
    It calls [NoSuchProcess] for a negative identifier, without probing,
    and when the probe fails with an error other than [EPERM]; it calls
    [AccessDenied] when the probe fails with [EPERM] and also when the
    probe succeeds.  The helper runs in the state the probe left. *)
Theorem raise_ad_or_nsp_dispatch (NoSuchProcess AccessDenied : M unit)
    (e : Env) (pid : Z) (s : state) :
  let p := C.to_int pid in
  let s1 := (psutil_pid_exists e p s).2 in
  (p < 0 ->
     psutil_raise_ad_or_nsp NoSuchProcess AccessDenied e pid s
     = (NoSuchProcess;; ret NoReturnValue) s)
  ∧ (0 <= p -> probe e s p = Success ∨ probe e s p = Failure C.EPERM ->
       psutil_raise_ad_or_nsp NoSuchProcess AccessDenied e pid s
       = (AccessDenied;; ret NoReturnValue) s1)
  ∧ (0 <= p -> forall en, probe e s p = Failure en -> en ≠ C.EPERM ->
       psutil_raise_ad_or_nsp NoSuchProcess AccessDenied e pid s
       = (NoSuchProcess;; ret NoReturnValue) s1).
Proof.
  cbn zeta. unfold psutil_raise_ad_or_nsp, psutil_pid_exists, probe, kill.
  destruct (Z.ltb_spec (C.to_int pid) 0) as [Hneg|Hpos].
  - split; [|split]; intros; try lia. reflexivity.
  - split; [lia|]. run.
    destruct (env_kill e (clock s) (C.to_int (C.to_int pid)) 0) as [|en0]; run.
    + split; [reflexivity|]. intros _ en Hen. discriminate.
    + split.
      * intros _ [?|Heq]; [discriminate|]. injection Heq as ->.
        rewrite Z.eqb_refl. reflexivity.
      * intros _ en Heq Hne. injection Heq as ->.
        destruct (Z.eqb_spec C.EPERM en); [congruence|reflexivity].
Qed.

Lemma raise_ad_or_nsp_dispatch_witness :
  let nsp := modify (set_pyerr (OSError C.ESRCH)) in
  let ad := modify (set_pyerr (OSError 13)) in
  (psutil_raise_ad_or_nsp nsp ad Scenario.denied (-1) init_state).1 = Done NoReturnValue
  ∧ pyerr (psutil_raise_ad_or_nsp nsp ad Scenario.denied (-1) init_state).2
    = Some (OSError C.ESRCH)
  ∧ pyerr (psutil_raise_ad_or_nsp nsp ad Scenario.denied 4242 init_state).2
    = Some (OSError 13)
  ∧ pyerr (psutil_raise_ad_or_nsp nsp ad Scenario.two_procs 4242 init_state).2
    = Some (OSError 13)
  ∧ pyerr (psutil_raise_ad_or_nsp nsp ad Sample.no_procs 4242 init_state).2
    = Some (OSError C.ESRCH).
Proof.
  intros nsp ad.
  destruct (raise_ad_or_nsp_dispatch nsp ad Scenario.denied (-1) init_state)
    as (Hneg & _ & _).
  destruct (raise_ad_or_nsp_dispatch nsp ad Scenario.denied 4242 init_state)
    as (_ & Hden & _).
  destruct (raise_ad_or_nsp_dispatch nsp ad Scenario.two_procs 4242 init_state)
    as (_ & Hok & _).
  destruct (raise_ad_or_nsp_dispatch nsp ad Sample.no_procs 4242 init_state)
    as (_ & _ & Hgone).
  rewrite Hneg by (vm_compute; reflexivity).
  rewrite Hden by (vm_compute; first [discriminate | right; reflexivity]).
  rewrite Hok by (vm_compute; first [discriminate | left; reflexivity]).
  rewrite (Hgone ltac:(vm_compute; discriminate) C.ESRCH eq_refl
             ltac:(vm_compute; discriminate)).
  repeat split.
Defined.
